(** * wifi-analyzer: session coordination logic of the Svelte front end

    A shallow embedding of the script blocks of
      - src/components/ChannelRating.svelte
      - src/components/PacketSniffer.svelte
      - src/routes/+page.svelte (with the wrappers of utils/api.ts)
    and the properties of the specification that concern them.

    Conventions of the embedding.
      - A JavaScript [number] that holds a count, an index, a channel, a timer
        id or a timestamp is a [Z]; a [number] that holds a fraction (the
        occupancy of a channel) is an IEEE 754 binary64 [float], compared with
        the primitive [<?] and [<=?] exactly as JavaScript compares doubles.
      - A component is a record of its [let] variables; a handler is a
        function on that record.  What an awaited call to the backend answers
        is an argument of the handler ([Resolved v] or [Rejected e]); a handler
        runs from its call to its end with no other handler in between.
      - A JavaScript [Map] is an association list in insertion order without
        repeated keys: [Map.prototype.set] overwrites in place or appends. *)

From Stdlib Require Import List ZArith String Bool Lia Permutation Sorted Floats.
Import ListNotations.
Open Scope Z_scope.

(* Decimal literals such as 0.3 denote the nearest double, as in JavaScript. *)
Set Warnings "-inexact-float".

(** ** JavaScript built-ins used by the components *)

Module Js.

(** The outcome of an awaited promise. *)
Inductive Settled (A : Type) : Type :=
| Resolved (v : A)
| Rejected (reason : string).
Arguments Resolved {A} v.
Arguments Rejected {A} reason.

(** [Array.from({ length: n }, (_, i) => f i)]. *)
Definition Array_from_length {A : Type} (n : nat) (f : Z -> A) : list A :=
  map (fun i => f (Z.of_nat i)) (seq 0 n).

(** [Array.prototype.slice(start, end)], with the clamping and the
    counting from the end of ECMA-262. *)
Definition slice {A : Type} (l : list A) (start end_ : Z) : list A :=
  let len := Z.of_nat (List.length l) in
  let k := if start <? 0 then Z.max (len + start) 0 else Z.min start len in
  let final := if end_ <? 0 then Z.max (len + end_) 0 else Z.min end_ len in
  firstn (Z.to_nat (final - k)) (skipn (Z.to_nat k) l).

(** [Array.prototype.sort(compareFn)] is a stable sort: the comparator's sign
    says whether [a] goes before [b] ([Lt]), after it ([Gt]) or neither
    ([Eq]).  Stable insertion, from the right. *)
Section Sort.
Context {A : Type} (compareFn : A -> A -> comparison).

Fixpoint insert (x : A) (l : list A) : list A :=
  match l with
  | [] => [x]
  | y :: l' =>
      match compareFn x y with
      | Gt => y :: insert x l'
      | _ => x :: l
      end
  end.

Definition sort (l : list A) : list A := fold_right insert [] l.

(** [x] may stand before [y]: the comparator does not ask for a swap. *)
Definition in_order (x y : A) : Prop := compareFn x y <> Gt.
End Sort.

(** The sign of a difference of two integers, as [sort] reads it. *)
Definition sign (d : Z) : comparison := d ?= 0.

(** The sign of a difference of two doubles; [NaN] counts as [+0]. *)
Definition fsign (d : float) : comparison :=
  if (d <? 0)%float then Lt else if (0 <? d)%float then Gt else Eq.

(** [Math.ceil(a / b)] for a length [a >= 0] and a positive integer [b]:
    the quotient of two doubles rounded up is the least integer [n] with
    [a <= n * b]. *)
Definition Math_ceil_div (a b : Z) : Z := (a + b - 1) / b.

End Js.


(** ** [Map<string, V>]: entries in insertion order *)

Module JsMap.
Section WithValues.
Context {V : Type}.

Definition t : Type := list (string * V).

(** [new Map()] and what [clear()] leaves. *)
Definition empty : t := [].

(** [m.set(k, v)]: an existing key keeps its place and takes the new
    value; a new key goes last. *)
Fixpoint set (k : string) (v : V) (m : t) : t :=
  match m with
  | [] => [(k, v)]
  | (k', v') :: m' =>
      if String.eqb k' k then (k, v) :: m' else (k', v') :: set k v m'
  end.

Fixpoint get (k : string) (m : t) : option V :=
  match m with
  | [] => None
  | (k', v') :: m' => if String.eqb k' k then Some v' else get k m'
  end.

Definition keys (m : t) : list string := map fst m.

(** [Array.from(m.values())]. *)
Definition values (m : t) : list V := map snd m.
End WithValues.
Arguments t V : clear implicits.
End JsMap.

(** ** Handlers: a state and a thrown exception *)

Module Eff.
Section WithState.
Context {S : Type}.

(** A piece of a handler: it ends normally with a value or throws, and
    leaves a state either way. *)
Definition M (A : Type) : Type := S -> Js.Settled A * S.

Definition ret {A} (a : A) : M A := fun s => (Js.Resolved a, s).

Definition bind {A B} (m : M A) (k : A -> M B) : M B :=
  fun s =>
    match m s with
    | (Js.Resolved a, s') => k a s'
    | (Js.Rejected e, s') => (Js.Rejected e, s')
    end.

Definition throw {A} (e : string) : M A := fun s => (Js.Rejected e, s).

(** [await p] for a promise of the backend whose outcome is [answer]. *)
Definition await {A} (answer : Js.Settled A) : M A := fun s => (answer, s).

(** [try { body } catch (e) { handler e }]. *)
Definition try_catch {A} (body : M A) (handler : string -> M A) : M A :=
  fun s =>
    match body s with
    | (Js.Resolved a, s') => (Js.Resolved a, s')
    | (Js.Rejected e, s') => handler e s'
    end.

(** [try { body } finally { final }]. *)
Definition try_finally {A} (body : M A) (final : M unit) : M A :=
  fun s =>
    let (r, s') := body s in
    match final s' with
    | (Js.Resolved _, s'') => (r, s'')
    | (Js.Rejected e, s'') => (Js.Rejected e, s'')
    end.

Definition modify (f : S -> S) : M unit := fun s => (Js.Resolved tt, f s).
Definition gets {A} (f : S -> A) : M A := fun s => (Js.Resolved (f s), s).

(** [if (b) { m }]. *)
Definition when (b : bool) (m : M unit) : M unit := if b then m else ret tt.

(** The state a handler leaves. *)
Definition exec {A} (m : M A) (s : S) : S := snd (m s).
End WithState.
Arguments M S A : clear implicits.
End Eff.

Notation "x <- m ;; k" := (Eff.bind m (fun x => k))
  (at level 61, m at next level, right associativity).
Notation "m ;; k" := (Eff.bind m (fun _ => k))
  (at level 61, right associativity).

(** ** The console *)

Inductive LogLevel : Type := Info | Error.

Record LogEntry : Type := mkLog {
  level : LogLevel;
  message : string;
  (** the value printed after the message, when it is an exception *)
  detail : option string
}.

(** A state that carries the lines written to the console, oldest first. *)
Class Console (S : Type) : Type := { push_log : LogEntry -> S -> S }.

Definition console_log {S} `{Console S} (msg : string) : Eff.M S unit :=
  Eff.modify (push_log (mkLog Info msg None)).

Definition console_error {S} `{Console S} (msg err : string) : Eff.M S unit :=
  Eff.modify (push_log (mkLog Error msg (Some err))).

(** ** utils/api.ts *)

Module Api.

Record WiFiNetwork : Type := mkWiFiNetwork {
  ssid : string;
  bssid : string;
  signal_quality : Z;
  frequency : float;
  channel : Z;
  security : string;
  avg_signal : float;
  beacon_count : Z;
  last_seen : Z
}.

Record PacketInfo : Type := mkPacketInfo {
  src_mac : string;
  dst_mac : string;
  src_ip : option string;
  dst_ip : option string;
  src_port : option Z;
  dst_port : option Z;
  protocol : string;
  length : Z;
  payload : option string;
  timestamp : Z
}.

(** [interface ChannelData]; a module of its own, since [channel] is also a
    field of [WiFiNetwork]. *)
Module ChannelData.
Record t : Type := mk {
  channel : Z;
  occupancy : float
}.
End ChannelData.

Section Wrappers.
Context {S : Type} `{Console S}.

(** Each wrapper awaits [invoke] of a backend command, whose outcome is
    [answer]; on a rejection it writes to the console and throws again.
    The backend emits its progress events while [scan_wifi] runs:
    [pending] is what the event loop does with them before the answer. *)
Definition scanWifi (pending : Eff.M S unit) (answer : Js.Settled (list WiFiNetwork)) :
    Eff.M S (list WiFiNetwork) :=
  Eff.try_catch
    (console_log "Starting WiFi scan..." ;;
     pending ;;
     networks <- Eff.await answer ;;
     console_log "Scan completed, found networks:" ;;
     Eff.ret networks)
    (fun error =>
       console_error "Failed to scan Wi-Fi networks:" error ;;
       Eff.throw error).

Definition getChannelData (answer : Js.Settled (list ChannelData.t))
    (networks : list WiFiNetwork) : Eff.M S (list ChannelData.t) :=
  Eff.try_catch
    (channelData <- Eff.await answer ;;
     Eff.ret channelData)
    (fun error =>
       console_error "Failed to get channel data:" error ;;
       Eff.throw error).

Definition listDevices (answer : Js.Settled (list string)) : Eff.M S (list string) :=
  Eff.try_catch
    (devices <- Eff.await answer ;;
     Eff.ret devices)
    (fun error =>
       console_error "Failed to list network devices:" error ;;
       Eff.throw error).

Definition startPacketCapture (answer : Js.Settled unit)
    (deviceName : string) : Eff.M S unit :=
  Eff.try_catch
    (Eff.await answer)
    (fun error =>
       console_error "Failed to start packet capture:" error ;;
       Eff.throw error).

Definition stopPacketCapture (answer : Js.Settled unit) : Eff.M S unit :=
  Eff.try_catch
    (Eff.await answer)
    (fun error =>
       console_error "Failed to stop packet capture:" error ;;
       Eff.throw error).

Definition getLatestPackets (answer : Js.Settled (list PacketInfo)) : Eff.M S (list PacketInfo) :=
  Eff.try_catch
    (latestPackets <- Eff.await answer ;;
     Eff.ret latestPackets)
    (fun error =>
       console_error "Failed to get latest packets:" error ;;
       Eff.throw error).
End Wrappers.

End Api.

(** ** components/ChannelRating.svelte *)

Module ChannelRating.

(** The prop [channelData: { channel: number; occupancy: number }[]]. *)
Import Api.ChannelData.

(** [$: normalizedData = Array.from({ length: 13 }, (_, i) => ...)]. *)
Definition normalizedData (channelData : list Api.ChannelData.t) : list Api.ChannelData.t :=
  Js.Array_from_length 13 (fun i =>
    match find (fun d => channel d =? i + 1) channelData with
    | Some existing => existing
    | None => {| channel := i + 1; occupancy := 0 |}
    end).

(** [$: sortedData = [...normalizedData].sort(...)]; [sortBy] is the value of
    the select element, ["channel"] at first. *)
Definition sortedData (sortBy : string) (normalized : list Api.ChannelData.t) :
    list Api.ChannelData.t :=
  Js.sort (fun a b =>
    if String.eqb sortBy "channel" then Js.sign (channel a - channel b)
    else Js.fsign (occupancy b - occupancy a)%float) normalized.

Definition getChannelQuality (occupancy : float) : string :=
  if (occupancy <? 0.3)%float then "Excellent"
  else if (occupancy <? 0.5)%float then "Good"
  else if (occupancy <? 0.7)%float then "Fair"
  else "Poor".

Definition getChannelColor (occupancy : float) : string :=
  if (occupancy <? 0.3)%float then "text-green-500"
  else if (occupancy <? 0.5)%float then "text-blue-500"
  else if (occupancy <? 0.7)%float then "text-yellow-500"
  else "text-red-500".

(** The recommendation cell of the table: the [{#if}] block over
    [channel.occupancy]. *)
Definition recommendation (occupancy : float) : string :=
  if (occupancy <? 0.3)%float then "Recommended, low traffic"
  else if (0.7 <=? occupancy)%float then "Avoid - high congestion"
  else "Usable with caution".

End ChannelRating.

(** ** components/PacketSniffer.svelte *)

Module PacketSniffer.

Import Api.

(** The functions this component hands to [setInterval]. *)
Inductive Callback : Type := FetchLatestPackets.

(** An interval of the window that has not been cleared. *)
Record Timer : Type := mkTimer {
  handle : Z;
  callback : Callback;
  delay : Z  (* milliseconds *)
}.

(** The [let] variables of the script, then what the component shares with
    the window: its active intervals, the handle the next [setInterval]
    returns, and the console. *)
Record State : Type := mkState {
  allPackets : list PacketInfo;
  displayedPackets : list PacketInfo;
  selectedPacket : option PacketInfo;
  interfaceName : string;
  isCapturing : bool;
  error : option string;
  availableInterfaces : list string;
  updateInterval : option Z;  (* [undefined] before the first capture *)
  currentPage : Z;
  intervals : list Timer;
  nextHandle : Z;
  console : list LogEntry
}.

Definition packetsPerPage : Z := 10.

(** The state the script block sets up. *)
Definition initial : State :=
  {| allPackets := []; displayedPackets := []; selectedPacket := None;
     interfaceName := ""; isCapturing := false; error := None;
     availableInterfaces := []; updateInterval := None; currentPage := 1;
     intervals := []; nextHandle := 1; console := [] |}.

Definition set_allPackets (v : list PacketInfo) (s : State) : State :=
  mkState v (displayedPackets s) (selectedPacket s) (interfaceName s)
    (isCapturing s) (error s) (availableInterfaces s) (updateInterval s)
    (currentPage s) (intervals s) (nextHandle s) (console s).

Definition set_displayedPackets (v : list PacketInfo) (s : State) : State :=
  mkState (allPackets s) v (selectedPacket s) (interfaceName s)
    (isCapturing s) (error s) (availableInterfaces s) (updateInterval s)
    (currentPage s) (intervals s) (nextHandle s) (console s).

Definition set_selectedPacket (v : option PacketInfo) (s : State) : State :=
  mkState (allPackets s) (displayedPackets s) v (interfaceName s)
    (isCapturing s) (error s) (availableInterfaces s) (updateInterval s)
    (currentPage s) (intervals s) (nextHandle s) (console s).

Definition set_interfaceName (v : string) (s : State) : State :=
  mkState (allPackets s) (displayedPackets s) (selectedPacket s) v
    (isCapturing s) (error s) (availableInterfaces s) (updateInterval s)
    (currentPage s) (intervals s) (nextHandle s) (console s).

Definition set_isCapturing (v : bool) (s : State) : State :=
  mkState (allPackets s) (displayedPackets s) (selectedPacket s) (interfaceName s)
    v (error s) (availableInterfaces s) (updateInterval s)
    (currentPage s) (intervals s) (nextHandle s) (console s).

Definition set_error (v : option string) (s : State) : State :=
  mkState (allPackets s) (displayedPackets s) (selectedPacket s) (interfaceName s)
    (isCapturing s) v (availableInterfaces s) (updateInterval s)
    (currentPage s) (intervals s) (nextHandle s) (console s).

Definition set_updateInterval (v : option Z) (s : State) : State :=
  mkState (allPackets s) (displayedPackets s) (selectedPacket s) (interfaceName s)
    (isCapturing s) (error s) (availableInterfaces s) v
    (currentPage s) (intervals s) (nextHandle s) (console s).

Definition set_currentPage (v : Z) (s : State) : State :=
  mkState (allPackets s) (displayedPackets s) (selectedPacket s) (interfaceName s)
    (isCapturing s) (error s) (availableInterfaces s) (updateInterval s)
    v (intervals s) (nextHandle s) (console s).

Definition set_intervals (v : list Timer) (s : State) : State :=
  mkState (allPackets s) (displayedPackets s) (selectedPacket s) (interfaceName s)
    (isCapturing s) (error s) (availableInterfaces s) (updateInterval s)
    (currentPage s) v (nextHandle s) (console s).

Definition set_nextHandle (v : Z) (s : State) : State :=
  mkState (allPackets s) (displayedPackets s) (selectedPacket s) (interfaceName s)
    (isCapturing s) (error s) (availableInterfaces s) (updateInterval s)
    (currentPage s) (intervals s) v (console s).

#[export] Instance State_console : Console State :=
  {| push_log := fun entry s =>
       mkState (allPackets s) (displayedPackets s) (selectedPacket s)
         (interfaceName s) (isCapturing s) (error s) (availableInterfaces s)
         (updateInterval s) (currentPage s) (intervals s) (nextHandle s)
         (console s ++ [entry]) |}.

Definition M : Type -> Type := Eff.M State.

(** [setInterval(cb, ms)]: a new interval under a fresh handle. *)
Definition setInterval (cb : Callback) (ms : Z) : M Z :=
  fun s =>
    let h := nextHandle s in
    (Js.Resolved h,
     set_nextHandle (h + 1) (set_intervals (intervals s ++ [mkTimer h cb ms]) s)).

(** [clearInterval(h)]: the interval of that handle, if there is one, is
    no more. *)
Definition clearInterval (h : Z) : M unit :=
  Eff.modify (fun s =>
    set_intervals (filter (fun t => negb (handle t =? h)) (intervals s)) s).

(** [if (updateInterval)]: defined and not zero. *)
Definition truthy_handle (h : option Z) : bool :=
  match h with
  | Some n => negb (n =? 0)
  | None => false
  end.

(** [if (interfaceName)]: not the empty string. *)
Definition truthy_string (s : string) : bool := negb (String.eqb s "").

Definition updateDisplayedPackets : M unit :=
  Eff.modify (fun s =>
    let startIndex := (currentPage s - 1) * packetsPerPage in
    set_displayedPackets
      (Js.slice (allPackets s) startIndex (startIndex + packetsPerPage)) s).

(** The comparator [(a, b) => b.timestamp - a.timestamp]. *)
Definition newest_first (a b : PacketInfo) : comparison :=
  Js.sign (timestamp b - timestamp a).

(** [answer] is what the backend says to [get_latest_packets]. *)
Definition fetchLatestPackets (answer : Js.Settled (list PacketInfo)) : M unit :=
  Eff.try_catch
    (newPackets <- getLatestPackets answer ;;
     Eff.when (Z.of_nat (List.length newPackets) >? 0)
       (Eff.modify (fun s =>
          set_allPackets (Js.sort newest_first (allPackets s ++ newPackets)) s) ;;
        updateDisplayedPackets))
    (fun err => console_error "Failed to fetch latest packets:" err).

(** [answer] is what the backend says to [start_packet_capture]. *)
Definition startCapture (answer : Js.Settled unit) : M unit :=
  Eff.try_catch
    (name <- Eff.gets interfaceName ;;
     startPacketCapture answer name ;;
     Eff.modify (set_isCapturing true) ;;
     Eff.modify (set_error None) ;;
     console_log "Packet capture started" ;;
     h <- setInterval FetchLatestPackets 3000 ;;
     Eff.modify (set_updateInterval (Some h)))
    (fun err =>
       console_error "Failed to start packet capture:" err ;;
       Eff.modify (set_error (Some
         "Failed to start packet capture. Please check your permissions and try again."%string))).

(** [answer] is what the backend says to [stop_packet_capture]. *)
Definition stopCapture (answer : Js.Settled unit) : M unit :=
  Eff.try_catch
    (stopPacketCapture answer ;;
     Eff.modify (set_isCapturing false) ;;
     Eff.modify (set_error None) ;;
     console_log "Packet capture stopped" ;;
     h <- Eff.gets updateInterval ;;
     Eff.when (truthy_handle h)
       (match h with Some n => clearInterval n | None => Eff.ret tt end))
    (fun err =>
       console_error "Failed to stop packet capture:" err ;;
       Eff.modify (set_error (Some
         "Failed to stop packet capture. The capture may have already been stopped."%string))).

Definition selectPacket (packet : PacketInfo) : M unit :=
  Eff.modify (set_selectedPacket (Some packet)).

Definition nextPage : M unit :=
  page <- Eff.gets currentPage ;;
  packets <- Eff.gets allPackets ;;
  Eff.when (page <? Js.Math_ceil_div (Z.of_nat (List.length packets)) packetsPerPage)
    (Eff.modify (set_currentPage (page + 1)) ;;
     updateDisplayedPackets).

Definition prevPage : M unit :=
  page <- Eff.gets currentPage ;;
  Eff.when (page >? 1)
    (Eff.modify (set_currentPage (page - 1)) ;;
     updateDisplayedPackets).

(** [$: if (interfaceName) { ... }]: the block that clears the packets. *)
Definition interfaceName_changed : M unit :=
  name <- Eff.gets interfaceName ;;
  Eff.when (truthy_string name)
    (Eff.modify (set_allPackets []) ;;
     Eff.modify (set_currentPage 1) ;;
     Eff.modify (set_displayedPackets []) ;;
     Eff.modify (set_selectedPacket None)).

(** [bind:value={interfaceName}] on the select element: choosing [name]
    assigns the variable; an assignment of a different value invalidates it,
    and the reactive block, which reads no other variable, runs. *)
Definition selectInterface (name : string) : M unit :=
  old <- Eff.gets interfaceName ;;
  Eff.when (negb (String.eqb old name))
    (Eff.modify (set_interfaceName name) ;;
     interfaceName_changed).

(** [$: totalPages = Math.ceil(allPackets.length / packetsPerPage)]. *)
Definition totalPages (s : State) : Z :=
  Js.Math_ceil_div (Z.of_nat (List.length (allPackets s))) packetsPerPage.

(** What the window does with an interval that is due: it calls its
    function; the interval stays. *)
Definition tick (t : Timer) (answer : Js.Settled (list PacketInfo)) : M unit :=
  match callback t with
  | FetchLatestPackets => fetchLatestPackets answer
  end.

(** The session of the specification, read off the component. *)
Inductive Status : Type := Idle | Capturing.

Definition status (s : State) : Status :=
  if isCapturing s then Capturing else Idle.

(** Some interval of the component is active: the poll goes on. *)
Definition polling (s : State) : bool :=
  match intervals s with
  | [] => false
  | _ :: _ => true
  end.

(** Every active interval is the one the component remembers, the state of
    affairs after one [startCapture]. *)
Definition remembers_intervals (s : State) : bool :=
  forallb (fun t =>
    match updateInterval s with
    | Some h => (handle t =? h) && negb (h =? 0)
    | None => false
    end) (intervals s).

(** The variables of the script without the console. *)
Definition silent (s : State) : State :=
  mkState (allPackets s) (displayedPackets s) (selectedPacket s)
    (interfaceName s) (isCapturing s) (error s) (availableInterfaces s)
    (updateInterval s) (currentPage s) (intervals s) (nextHandle s) [].

Definition set_availableInterfaces (v : list string) (s : State) : State :=
  mkState (allPackets s) (displayedPackets s) (selectedPacket s) (interfaceName s)
    (isCapturing s) (error s) v (updateInterval s)
    (currentPage s) (intervals s) (nextHandle s) (console s).

(** [onMount]: [answer] is what the backend says to [list_devices].  The
    assignment [interfaceName = availableInterfaces[0]] is an assignment of
    the variable like the one of the select element. *)
Definition onMount (answer : Js.Settled (list string)) : M unit :=
  Eff.try_catch
    (devices <- listDevices answer ;;
     Eff.modify (set_availableInterfaces devices) ;;
     Eff.when (Z.of_nat (List.length devices) >? 0)
       (match devices with
        | first :: _ => selectInterface first
        | [] => Eff.ret tt
        end))
    (fun err =>
       console_error "Failed to initialize PacketSniffer:" err ;;
       Eff.modify (set_error (Some
         "Failed to initialize. Please check your connection and try again."%string))).

(** [onDestroy]: [answer] is what the backend says to [stop_packet_capture].
    [stopCapture()] is called first and not awaited: its request leaves at
    once, and everything it does to the variables comes after the backend has
    answered, so after [clearInterval], which runs in the same turn. *)
Definition onDestroy (answer : Js.Settled unit) : M unit :=
  capturing <- Eff.gets isCapturing ;;
  h <- Eff.gets updateInterval ;;
  Eff.when (truthy_handle h)
    (match h with Some n => clearInterval n | None => Eff.ret tt end) ;;
  Eff.when capturing (stopCapture answer).

(** What happens to a mounted component: a click on a button or on a
    packet, a choice in the select element, an interval that is due. *)
Inductive Event : Type :=
| StartClicked (answer : Js.Settled unit)
| StopClicked (answer : Js.Settled unit)
| IntervalDue (t : Timer) (answer : Js.Settled (list PacketInfo))
| PacketClicked (packet : PacketInfo)
| NextClicked
| PrevClicked
| InterfaceChosen (name : string).

Definition on_event (e : Event) : M unit :=
  match e with
  | StartClicked answer => startCapture answer
  | StopClicked answer => stopCapture answer
  | IntervalDue t answer => tick t answer
  | PacketClicked packet => selectPacket packet
  | NextClicked => nextPage
  | PrevClicked => prevPage
  | InterfaceChosen name => selectInterface name
  end.

(** Only an active interval comes due, and the select element offers the
    available interfaces only. *)
Definition possible (s : State) (e : Event) : Prop :=
  match e with
  | IntervalDue t _ => In t (intervals s)
  | InterfaceChosen name => In name (availableInterfaces s)
  | _ => True
  end.

(** The states of a component: mounted from the initial state, then any
    possible events, each handled to its end. *)
Inductive reachable : State -> Prop :=
| reach_mounted (answer : Js.Settled (list string)) :
    reachable (Eff.exec (onMount answer) initial)
| reach_event (s : State) (e : Event) :
    reachable s -> possible s e -> reachable (Eff.exec (on_event e) s).

End PacketSniffer.

(** ** components/ChannelGraph.svelte *)

Module ChannelGraph.

Import Api.ChannelData.

(** [const sortedData = [...channelData].sort((a, b) => a.channel - b.channel)]. *)
Definition by_channel (a b : Api.ChannelData.t) : comparison :=
  Js.sign (channel a - channel b).

Definition sortedData (channelData : list Api.ChannelData.t) : list Api.ChannelData.t :=
  Js.sort by_channel channelData.

End ChannelGraph.

(** ** components/NetworkList.svelte *)

Module NetworkList.

Definition getSignalLevel (signalQuality : Z) : Z :=
  if signalQuality >=? 80 then 4
  else if signalQuality >=? 60 then 3
  else if signalQuality >=? 40 then 2
  else 1.

Definition getSignalColor (signalQuality : Z) : string :=
  if signalQuality >=? 80 then "#4caf50"
  else if signalQuality >=? 60 then "#8bc34a"
  else if signalQuality >=? 40 then "#ffc107"
  else "#ff5722".

(** The height of the clipped part of the icon, in percent:
    [100 - getSignalLevel(network.signal_quality) * 25]. *)
Definition clip_percent (signalQuality : Z) : Z :=
  100 - getSignalLevel signalQuality * 25.

End NetworkList.

(** ** routes/+page.svelte *)

Module Page.

Import Api.

(** The variables of the script, the module-level map [uniqueNetworks], and
    what the page shares with the runtime: the handlers registered on
    ["wifi_scan_progress"], each under the id its [unlisten] removes, and
    the console.  Every handler is the closure of [performScan], which
    reads and writes the variables of the script only. *)
Record State : Type := mkState {
  networks : list WiFiNetwork;
  selectedNetwork : option WiFiNetwork;
  channelData : list ChannelData.t;
  isNetworkDetailsVisible : bool;
  isScanning : bool;
  uniqueNetworks : JsMap.t WiFiNetwork;
  listeners : list Z;
  nextListener : Z;
  console : list LogEntry
}.

Definition initial : State :=
  {| networks := []; selectedNetwork := None; channelData := [];
     isNetworkDetailsVisible := false; isScanning := false;
     uniqueNetworks := JsMap.empty; listeners := []; nextListener := 1;
     console := [] |}.

Definition set_networks (v : list WiFiNetwork) (s : State) : State :=
  mkState v (selectedNetwork s) (channelData s) (isNetworkDetailsVisible s)
    (isScanning s) (uniqueNetworks s) (listeners s) (nextListener s) (console s).

Definition set_channelData (v : list ChannelData.t) (s : State) : State :=
  mkState (networks s) (selectedNetwork s) v (isNetworkDetailsVisible s)
    (isScanning s) (uniqueNetworks s) (listeners s) (nextListener s) (console s).

Definition set_isScanning (v : bool) (s : State) : State :=
  mkState (networks s) (selectedNetwork s) (channelData s) (isNetworkDetailsVisible s)
    v (uniqueNetworks s) (listeners s) (nextListener s) (console s).

Definition set_uniqueNetworks (v : JsMap.t WiFiNetwork) (s : State) : State :=
  mkState (networks s) (selectedNetwork s) (channelData s) (isNetworkDetailsVisible s)
    (isScanning s) v (listeners s) (nextListener s) (console s).

Definition set_listeners (v : list Z) (s : State) : State :=
  mkState (networks s) (selectedNetwork s) (channelData s) (isNetworkDetailsVisible s)
    (isScanning s) (uniqueNetworks s) v (nextListener s) (console s).

Definition set_nextListener (v : Z) (s : State) : State :=
  mkState (networks s) (selectedNetwork s) (channelData s) (isNetworkDetailsVisible s)
    (isScanning s) (uniqueNetworks s) (listeners s) v (console s).

#[export] Instance State_console : Console State :=
  {| push_log := fun entry s =>
       mkState (networks s) (selectedNetwork s) (channelData s)
         (isNetworkDetailsVisible s) (isScanning s) (uniqueNetworks s)
         (listeners s) (nextListener s) (console s ++ [entry]) |}.

Definition M : Type -> Type := Eff.M State.

(** [await listen("wifi_scan_progress", handler)]: when the runtime accepts,
    the handler is registered under a fresh id, and the [unlisten] function
    that is returned removes that id. *)
Definition listen (answer : Js.Settled unit) : M Z :=
  Eff.await answer ;;
  id <- Eff.gets nextListener ;;
  Eff.modify (fun s => set_nextListener (id + 1) (set_listeners (listeners s ++ [id]) s)) ;;
  Eff.ret id.

Definition unlisten (id : Z) : M unit :=
  Eff.modify (fun s => set_listeners (filter (fun l => negb (l =? id)) (listeners s)) s).

(** [uniqueNetworks.set(network.bssid, network)]: the upsert of the store. *)
Definition upsert (network : WiFiNetwork) (m : JsMap.t WiFiNetwork) : JsMap.t WiFiNetwork :=
  JsMap.set (bssid network) network m.

(** [batch.forEach((network) => { uniqueNetworks.set(network.bssid, network); })]. *)
Definition set_each (batch : list WiFiNetwork) (m : JsMap.t WiFiNetwork) : JsMap.t WiFiNetwork :=
  fold_left (fun m network => upsert network m) batch m.

(** The handler of a progress event. *)
Definition onScanProgress (payload : list WiFiNetwork) : M unit :=
  console_log "Scan progress update received:" ;;
  Eff.modify (fun s => set_uniqueNetworks (set_each payload (uniqueNetworks s)) s) ;;
  Eff.modify (fun s => set_networks (JsMap.values (uniqueNetworks s)) s) ;;
  Eff.modify (fun s => set_networks (networks s) s).

(** The runtime delivers an event to every registered handler in turn. *)
Fixpoint deliver (registered : list Z) (payload : list WiFiNetwork) : M unit :=
  match registered with
  | [] => Eff.ret tt
  | _ :: rest => onScanProgress payload ;; deliver rest payload
  end.

Definition emit (payload : list WiFiNetwork) : M unit :=
  registered <- Eff.gets listeners ;;
  deliver registered payload.

Fixpoint emit_all (events : list (list WiFiNetwork)) : M unit :=
  match events with
  | [] => Eff.ret tt
  | payload :: rest => emit payload ;; emit_all rest
  end.

(** The page has one more writer of [channelData] that is no part of this
    handler: the reactive block [$: getChannelData(networks).then(...)], which
    runs again after every assignment to [networks] and assigns [channelData]
    when its own request is answered, at a moment and in an order the handlers
    do not fix.  It reads [networks] and writes [channelData] only, so what is
    proved below of [networks], [uniqueNetworks], [listeners] and [isScanning]
    does not depend on it; of [channelData] nothing is stated. *)

(** One call of [performScan]: [listening] is the runtime's answer to
    [listen], [progress] the events the backend emits during the scan,
    [scanned] its answer to [scan_wifi] and [channels] its answer to
    [get_channel_data]. *)
Definition performScan (listening : Js.Settled unit) (progress : list (list WiFiNetwork))
    (scanned : Js.Settled (list WiFiNetwork)) (channels : Js.Settled (list ChannelData.t)) :
    M unit :=
  scanning <- Eff.gets isScanning ;;
  if scanning then Eff.ret tt
  else
    Eff.modify (set_isScanning true) ;;
    Eff.modify (set_networks []) ;;
    Eff.modify (set_uniqueNetworks JsMap.empty) ;;
    Eff.try_finally
      (Eff.try_catch
         (unlisten_id <- listen listening ;;
          finalNetworks <- scanWifi (emit_all progress) scanned ;;
          console_log "Final scan results:" ;;
          Eff.when (Z.of_nat (List.length finalNetworks) >? 0)
            (Eff.modify (fun s =>
               set_uniqueNetworks (set_each finalNetworks (uniqueNetworks s)) s) ;;
             Eff.modify (fun s => set_networks (JsMap.values (uniqueNetworks s)) s)) ;;
          found <- Eff.gets networks ;;
          Eff.when (Z.of_nat (List.length found) >? 0)
            (data <- getChannelData channels found ;;
             Eff.modify (set_channelData data)) ;;
          unlisten unlisten_id)
         (fun error => console_error "Failed to update data:" error))
      (Eff.modify (set_isScanning false)).

End Page.

(** ** Vocabulary of the properties *)

(** The page count as the specification words it: the ceiling, and at
    least one page. *)
Definition spec_totalPages (bufferLength p : Z) : Z :=
  Z.max 1 (Js.Math_ceil_div bufferLength p).

(** A session that captures: the state one successful [startCapture]
    leaves from the initial state, on interface ["wlan0"]. *)
Definition capturing_wlan0 : PacketSniffer.State :=
  Eff.exec (PacketSniffer.startCapture (Js.Resolved tt))
    (PacketSniffer.set_interfaceName "wlan0" PacketSniffer.initial).

(** The same session after a second accepted start: two intervals are
    active and the component remembers the second. *)
Definition started_twice : PacketSniffer.State :=
  Eff.exec (PacketSniffer.startCapture (Js.Resolved tt)) capturing_wlan0.

Definition sample_packet (t : Z) : Api.PacketInfo :=
  Api.mkPacketInfo "aa:aa" "bb:bb" None None None None "TCP" 60 None t.

(** An idle session that still shows a packet of an earlier capture. *)
Definition idle_with_packets : PacketSniffer.State :=
  PacketSniffer.set_displayedPackets [sample_packet 7]
    (PacketSniffer.set_allPackets [sample_packet 7]
       (PacketSniffer.set_interfaceName "wlan0" PacketSniffer.initial)).

(** The record of identity [id] that arrived last, if one arrived. *)
Definition last_observation (id : string) (arrivals : list Api.WiFiNetwork) :
    option Api.WiFiNetwork :=
  find (fun r => String.eqb (Api.bssid r) id) (rev arrivals).

(** The store holds, under distinct keys, each under its own identity, the
    last observation of every identity of [arrivals] and nothing else. *)
Definition reflects (m : JsMap.t Api.WiFiNetwork) (arrivals : list Api.WiFiNetwork) : Prop :=
  NoDup (JsMap.keys m) /\
  (forall k r, In (k, r) m -> k = Api.bssid r) /\
  (forall k, JsMap.get k m = last_observation k arrivals).

(** What the handlers of progress events leave alone. *)
Definition same_frame (s s' : Page.State) : Prop :=
  Page.listeners s' = Page.listeners s /\ Page.nextListener s' = Page.nextListener s /\
  Page.isScanning s' = Page.isScanning s /\ Page.channelData s' = Page.channelData s.

(** A network record of the scenarios: identity [id] on channel [ch]. *)
Definition network (id : string) (ch : Z) : Api.WiFiNetwork :=
  Api.mkWiFiNetwork "net" id 50 2.4 ch "WPA2" 50 1 0.

(** The page number is in range and the packets shown are that page of
    the buffer. *)
Definition view_ok (s : PacketSniffer.State) : Prop :=
  1 <= PacketSniffer.currentPage s <= Z.max 1 (PacketSniffer.totalPages s) /\
  PacketSniffer.displayedPackets s =
    firstn 10 (skipn (Z.to_nat (10 * (PacketSniffer.currentPage s - 1)))
                 (PacketSniffer.allPackets s)).

(** The active intervals have distinct handles that [setInterval] has
    already handed out, all poll every 3000 ms, the remembered handle is one
    that was handed out, and a capturing session remembers one. *)
Definition timers_ok (s : PacketSniffer.State) : Prop :=
  NoDup (map PacketSniffer.handle (PacketSniffer.intervals s)) /\
  (forall t, In t (PacketSniffer.intervals s) ->
     1 <= PacketSniffer.handle t < PacketSniffer.nextHandle s /\
     PacketSniffer.delay t = 3000) /\
  (forall h, PacketSniffer.updateInterval s = Some h ->
     1 <= h < PacketSniffer.nextHandle s) /\
  (PacketSniffer.isCapturing s = true -> PacketSniffer.updateInterval s <> None) /\
  1 <= PacketSniffer.nextHandle s.

(** The interfaces a mount answer lists: none when the call failed. *)
Definition listed (answer : Js.Settled (list string)) : list string :=
  match answer with
  | Js.Resolved devices => devices
  | Js.Rejected _ => []
  end.

(** The states of a component whose [list_devices] call at mount was
    answered by [answer]: as [PacketSniffer.reachable], with the answer kept. *)
Inductive mounted_with (answer : Js.Settled (list string)) : PacketSniffer.State -> Prop :=
| mounted_first :
    mounted_with answer (Eff.exec (PacketSniffer.onMount answer) PacketSniffer.initial)
| mounted_event (s : PacketSniffer.State) (e : PacketSniffer.Event) :
    mounted_with answer s -> PacketSniffer.possible s e ->
    mounted_with answer (Eff.exec (PacketSniffer.on_event e) s).

(** The select element offers the interfaces of [devices], and the
    interface chosen is one of them, or the empty name when there is none. *)
Definition interface_ok (devices : list string) (s : PacketSniffer.State) : Prop :=
  PacketSniffer.availableInterfaces s = devices /\
  match devices with
  | [] => PacketSniffer.interfaceName s = ""%string
  | _ :: _ => In (PacketSniffer.interfaceName s) devices
  end.

(** A component that was mounted with one interface, started a capture,
    took a poll of 12 packets and went to page 2. *)
Definition busy_component : PacketSniffer.State :=
  Eff.exec (PacketSniffer.on_event PacketSniffer.NextClicked)
    (Eff.exec (PacketSniffer.on_event
                 (PacketSniffer.IntervalDue
                    (PacketSniffer.mkTimer 1 PacketSniffer.FetchLatestPackets 3000)
                    (Js.Resolved (map sample_packet (map Z.of_nat (seq 0 12))))))
       (Eff.exec (PacketSniffer.on_event (PacketSniffer.StartClicked (Js.Resolved tt)))
          (Eff.exec (PacketSniffer.onMount (Js.Resolved ["wlan0"%string]))
             PacketSniffer.initial))).

(** A component at rest that shows page 2 of a buffer of 25 packets. *)
Definition page2_of_25 : PacketSniffer.State :=
  Eff.exec PacketSniffer.nextPage
    (Eff.exec PacketSniffer.updateDisplayedPackets
       (PacketSniffer.set_allPackets (map sample_packet (map Z.of_nat (seq 0 25)))
          PacketSniffer.initial)).

(** The records that reach the page during one scan, in arrival order:
    none when [listen] is refused, else the progress events, then the final
    batch when [scan_wifi] answers. *)
Definition arrivals_of (listening : Js.Settled unit) (progress : list (list Api.WiFiNetwork))
    (scanned : Js.Settled (list Api.WiFiNetwork)) : list Api.WiFiNetwork :=
  match listening with
  | Js.Rejected _ => []
  | Js.Resolved _ =>
      List.concat progress ++
      match scanned with
      | Js.Resolved final => final
      | Js.Rejected _ => []
      end
  end.

(** The identities of a sequence, each once, in the order of their first
    occurrence. *)
Fixpoint first_seen (ids : list string) : list string :=
  match ids with
  | [] => []
  | id :: rest => id :: filter (fun id' => negb (String.eqb id' id)) (first_seen rest)
  end.

(** The keys of a [Map] after a [set] under [k]. *)
Definition note (known : list string) (k : string) : list string :=
  if existsb (String.eqb k) known then known else known ++ [k].

(** The store reflects the arrivals and lists them by first arrival. *)
Definition merged (m : JsMap.t Api.WiFiNetwork) (arrivals : list Api.WiFiNetwork) : Prop :=
  reflects m arrivals /\ JsMap.keys m = first_seen (map Api.bssid arrivals).

(** Unfolding a handler down to the state it leaves. *)
Ltac unfold_eff :=
  cbv beta iota zeta delta
    [Eff.exec Eff.bind Eff.ret Eff.throw Eff.await Eff.try_catch Eff.try_finally
     Eff.modify Eff.gets Eff.when console_log console_error push_log fst snd].

(** Unfolding the handlers of the packet sniffer. *)
Ltac unfold_sniffer :=
  cbv beta iota zeta delta
    [PacketSniffer.on_event PacketSniffer.onMount PacketSniffer.onDestroy
     PacketSniffer.startCapture PacketSniffer.stopCapture
     PacketSniffer.fetchLatestPackets PacketSniffer.tick PacketSniffer.selectPacket
     PacketSniffer.nextPage PacketSniffer.prevPage PacketSniffer.selectInterface
     PacketSniffer.interfaceName_changed PacketSniffer.updateDisplayedPackets
     PacketSniffer.setInterval PacketSniffer.clearInterval
     PacketSniffer.truthy_handle PacketSniffer.truthy_string
     PacketSniffer.State_console
     Api.listDevices Api.startPacketCapture Api.stopPacketCapture Api.getLatestPackets];
  unfold_eff.

(** Unfolding the handlers of the page. *)
Ltac unfold_page :=
  cbv beta iota zeta delta
    [Page.performScan Page.listen Page.unlisten Page.onScanProgress Page.emit
     Page.State_console Api.scanWifi Api.getChannelData];
  unfold_eff.

(** * Properties *)

(** ** The stable sort leaves a sorted array as it is *)

Section SortFacts.
Context {A : Type} (compareFn : A -> A -> comparison).

Lemma sort_cons (x : A) (l : list A) :
  Js.sort compareFn (x :: l) = Js.insert compareFn x (Js.sort compareFn l).
Proof. reflexivity. Qed.

Lemma insert_perm (x : A) (l : list A) :
  Permutation (Js.insert compareFn x l) (x :: l).
Proof.
  induction l as [|y l IH]; cbn [Js.insert]; [reflexivity|].
  destruct (compareFn x y); try reflexivity.
  rewrite IH. apply perm_swap.
Qed.

Lemma sort_perm (l : list A) : Permutation (Js.sort compareFn l) l.
Proof.
  induction l as [|x l IH]; [reflexivity|].
  rewrite sort_cons, insert_perm. now constructor.
Qed.

Lemma sort_in_order (l : list A) :
  StronglySorted (Js.in_order compareFn) l -> Js.sort compareFn l = l.
Proof.
  induction 1 as [|x l Hs IH Hx]; [reflexivity|].
  rewrite sort_cons, IH.
  destruct l as [|y l']; [reflexivity|].
  cbn [Js.insert].
  apply Forall_inv in Hx. unfold Js.in_order in Hx.
  destruct (compareFn x y); congruence.
Qed.

Hypothesis compare_flip : forall x y, compareFn x y = Gt -> compareFn y x <> Gt.
Hypothesis compare_trans :
  forall x y z,
  Js.in_order compareFn x y -> Js.in_order compareFn y z -> Js.in_order compareFn x z.

Lemma insert_in_order (x : A) (l : list A) :
  StronglySorted (Js.in_order compareFn) l -> StronglySorted (Js.in_order compareFn) (Js.insert compareFn x l).
Proof.
  induction 1 as [|y l Hs IH Hy]; cbn [Js.insert].
  - repeat constructor.
  - destruct (compareFn x y) eqn:E.
    + constructor; [now constructor|].
      assert (Hxy : Js.in_order compareFn x y) by (unfold Js.in_order; congruence).
      constructor; [exact Hxy|].
      eapply Forall_impl; [|exact Hy]. intros z Hz. now apply (compare_trans x y z).
    + constructor; [now constructor|].
      assert (Hxy : Js.in_order compareFn x y) by (unfold Js.in_order; congruence).
      constructor; [exact Hxy|].
      eapply Forall_impl; [|exact Hy]. intros z Hz. now apply (compare_trans x y z).
    + constructor; [exact IH|].
      apply (Permutation_Forall (Permutation_sym (insert_perm x l))).
      constructor; [now apply compare_flip | exact Hy].
Qed.

Lemma sort_sorted (l : list A) : StronglySorted (Js.in_order compareFn) (Js.sort compareFn l).
Proof.
  induction l as [|x l IH]; [constructor|].
  rewrite sort_cons. now apply insert_in_order.
Qed.
End SortFacts.

(** ** ChannelRating: the thirteen channels *)

Section ChannelRatingFacts.
Import Api.ChannelData ChannelRating.

(** The entry built for index [i] carries channel [i + 1], found or not. *)
Lemma entry_channel (channelData : list Api.ChannelData.t) (i : Z) :
  channel match find (fun d => channel d =? i + 1) channelData with
          | Some existing => existing
          | None => {| channel := i + 1; occupancy := 0 |}
          end = i + 1.
Proof.
  destruct (find _ channelData) as [existing|] eqn:E; [|reflexivity].
  apply find_some in E. destruct E as [_ E]. now apply Z.eqb_eq in E.
Qed.

Lemma normalizedData_channels (channelData : list Api.ChannelData.t) :
  map channel (normalizedData channelData) = [1; 2; 3; 4; 5; 6; 7; 8; 9; 10; 11; 12; 13].
Proof.
  unfold normalizedData, Js.Array_from_length.
  rewrite map_map.
  rewrite (map_ext _ (fun i => Z.of_nat i + 1)) by (intros; apply entry_channel).
  reflexivity.
Qed.

(** An entry of the output whose channel the input does not mention is
    the default one. *)
Lemma normalizedData_default (channelData : list Api.ChannelData.t) (d : Api.ChannelData.t) :
  In d (normalizedData channelData) ->
  ~ In (channel d) (map channel channelData) ->
  d = {| channel := channel d; occupancy := 0 |}.
Proof.
  unfold normalizedData, Js.Array_from_length. intros Hd Hno.
  apply in_map_iff in Hd. destruct Hd as [i [Hd _]].
  destruct (find _ channelData) as [existing|] eqn:E.
  - apply find_some in E. destruct E as [E _]. subst d.
    exfalso. apply Hno. now apply in_map.
  - now subst d.
Qed.

Lemma by_channel_sorted (l : list Api.ChannelData.t) :
  StronglySorted Z.lt (map channel l) ->
  StronglySorted (Js.in_order (fun a b => Js.sign (channel a - channel b))) l.
Proof.
  induction l as [|a l IH]; cbn [map]; intros H; [constructor|].
  apply StronglySorted_inv in H. destruct H as [Hl Ha].
  constructor; [now apply IH|].
  rewrite Forall_forall in *. intros b Hb.
  specialize (Ha (channel b) (in_map channel _ _ Hb)).
  unfold Js.in_order, Js.sign. rewrite Z.compare_gt_iff. lia.
Qed.
End ChannelRatingFacts.

(** C6: whatever the list of channel data, the normalized output has
    thirteen entries, carries the channels 1 to 13 in ascending order (so the
    table sorted by channel, the order shown at first, is the same array), and
    a channel that no input entry mentions has occupancy exactly 0. *)
Theorem normalizedData_total (channelData : list Api.ChannelData.t) :
  List.length (ChannelRating.normalizedData channelData) = 13%nat /\
  map Api.ChannelData.channel (ChannelRating.normalizedData channelData)
    = [1; 2; 3; 4; 5; 6; 7; 8; 9; 10; 11; 12; 13] /\
  ChannelRating.sortedData "channel" (ChannelRating.normalizedData channelData)
    = ChannelRating.normalizedData channelData /\
  forall d, In d (ChannelRating.normalizedData channelData) ->
    ~ In (Api.ChannelData.channel d) (map Api.ChannelData.channel channelData) ->
    Api.ChannelData.occupancy d = 0%float.
Proof.
  split; [reflexivity|].
  split; [apply normalizedData_channels|].
  split.
  - unfold ChannelRating.sortedData. cbn [String.eqb Ascii.eqb Bool.eqb].
    apply sort_in_order, by_channel_sorted.
    rewrite normalizedData_channels.
    repeat (constructor; [|repeat (constructor; try lia)]). constructor.
  - intros d Hd Hno.
    now rewrite (normalizedData_default channelData d Hd Hno).
Qed.

(** ** ChannelRating: the thresholds *)

Section Thresholds.
Open Scope float_scope.

Ltac spec_of c :=
  let v := eval vm_compute in (Prim2SF c) in
  change (Prim2SF c) with v in *.

(** On the occupancies of the domain the comparisons with the three
    thresholds behave as a total order does: [c <= x] is the negation of
    [x < c], and being below a threshold is being below the next. *)
Lemma threshold_order (x : float) :
  (0 <=? x) = true -> (x <=? 1) = true ->
  (0.3 <=? x) = negb (x <? 0.3) /\
  (0.5 <=? x) = negb (x <? 0.5) /\
  (0.7 <=? x) = negb (x <? 0.7) /\
  ((x <? 0.3) = true -> (x <? 0.5) = true) /\
  ((x <? 0.5) = true -> (x <? 0.7) = true).
Proof.
  rewrite !ltb_spec, !leb_spec.
  spec_of 0. spec_of 1. spec_of 0.3. spec_of 0.5. spec_of 0.7.
  destruct (Prim2SF x) as [s|s| |s m e];
    unfold SFltb, SFleb, SFcompare; try destruct s; try discriminate;
    try (intros; repeat split; intros; (reflexivity || discriminate)).
  intros _ _.
  rewrite !Pos.compare_cont_spec, !Pos2Z.inj_compare.
  generalize (Z.pos m). clear m. intros m.
  rewrite (Z.compare_antisym e (-54)), (Z.compare_antisym e (-53)).
  rewrite (Z.compare_antisym m 5404319552844595),
    (Z.compare_antisym m 4503599627370496),
    (Z.compare_antisym m 6305039478318694).
  destruct (Z.compare_spec e (-54)); destruct (Z.compare_spec e (-53)); try lia;
    destruct (Z.compare_spec m 5404319552844595);
    destruct (Z.compare_spec m 4503599627370496); try lia;
    destruct (Z.compare_spec m 6305039478318694); try lia;
    cbv [CompOpp Pos.switch_Eq negb]; repeat split; intros; (reflexivity || discriminate).
Qed.
End Thresholds.

(** C7: on an occupancy between 0 and 1 the quality is "Excellent" exactly
    below 0.3, "Good" exactly from 0.3 to below 0.5, "Fair" exactly from 0.5 to
    below 0.7 and "Poor" exactly from 0.7 on; the recommendation is the
    recommended one exactly below 0.3, the one to avoid exactly from 0.7 on,
    and the cautious one exactly in between. *)
Theorem quality_thresholds (x : float) :
  (0 <=? x)%float = true -> (x <=? 1)%float = true ->
  (ChannelRating.getChannelQuality x = "Excellent"%string <-> (x <? 0.3)%float = true) /\
  (ChannelRating.getChannelQuality x = "Good"%string <->
     (0.3 <=? x)%float = true /\ (x <? 0.5)%float = true) /\
  (ChannelRating.getChannelQuality x = "Fair"%string <->
     (0.5 <=? x)%float = true /\ (x <? 0.7)%float = true) /\
  (ChannelRating.getChannelQuality x = "Poor"%string <-> (0.7 <=? x)%float = true) /\
  (ChannelRating.recommendation x = "Recommended, low traffic"%string <->
     (x <? 0.3)%float = true) /\
  (ChannelRating.recommendation x = "Avoid - high congestion"%string <->
     (0.7 <=? x)%float = true) /\
  (ChannelRating.recommendation x = "Usable with caution"%string <->
     (x <? 0.3)%float = false /\ (0.7 <=? x)%float = false).
Proof.
  intros H0 H1.
  destruct (threshold_order x H0 H1) as (L3 & L5 & L7 & M35 & M57).
  unfold ChannelRating.getChannelQuality, ChannelRating.recommendation.
  rewrite L3, L5, L7.
  destruct (x <? 0.3)%float; [specialize (M35 eq_refl); rewrite M35 in *|];
    (destruct (x <? 0.5)%float; [specialize (M57 eq_refl); rewrite M57 in *|]);
    try destruct (x <? 0.7)%float; cbn [negb];
    repeat split; intros; try reflexivity; try discriminate;
    repeat match goal with H : _ /\ _ |- _ => destruct H end; discriminate.
Qed.

(** The scenario of the specification: occupancy 0.8 is "Poor" and to avoid. *)
Lemma quality_thresholds_witness :
  (0 <=? 0.8)%float = true /\ (0.8 <=? 1)%float = true /\
  ChannelRating.getChannelQuality 0.8 = "Poor"%string /\
  ChannelRating.recommendation 0.8 = "Avoid - high congestion"%string.
Proof.
  split; [reflexivity|]. split; [reflexivity|].
  destruct (quality_thresholds 0.8 eq_refl eq_refl) as (_ & _ & _ & [_ P] & _ & [_ V] & _).
  split; [apply P | apply V]; reflexivity.
Defined.

(** The scenario of the specification in full: from the one entry of
    channel 6, the twelve other channels come out with occupancy 0 and are
    "Excellent"; channel 6 is "Poor". *)
Example normalizedData_scenario :
  map (fun d => (Api.ChannelData.channel d,
                 ChannelRating.getChannelQuality (Api.ChannelData.occupancy d)))
      (ChannelRating.normalizedData [Api.ChannelData.mk 6 0.8])
  = [(1, "Excellent"); (2, "Excellent"); (3, "Excellent"); (4, "Excellent");
     (5, "Excellent"); (6, "Poor"); (7, "Excellent"); (8, "Excellent");
     (9, "Excellent"); (10, "Excellent"); (11, "Excellent"); (12, "Excellent");
     (13, "Excellent")]%string.
Proof. reflexivity. Qed.

(** ** PacketSniffer: pages *)

(** [Math_ceil_div a b] is the ceiling of [a / b]: the least integer [n]
    with [a <= n * b]. *)
Lemma Math_ceil_div_least (a b n : Z) :
  0 < b -> (a <= n * b <-> Js.Math_ceil_div a b <= n).
Proof.
  intros Hb. unfold Js.Math_ceil_div. split; intros H.
  - assert ((a + b - 1) / b < n + 1); [|lia].
    apply Z.div_lt_upper_bound; lia.
  - pose proof (Z.mul_div_le (a + b - 1) b Hb).
    pose proof (Z.mod_pos_bound (a + b - 1) b Hb).
    pose proof (Z.div_mod (a + b - 1) b ltac:(lia)).
    nia.
Qed.

(** C2, as stated, fails on the empty buffer: the component computes
    0 pages where the specification promises 1. *)
Lemma totalPages_empty_is_zero :
  PacketSniffer.allPackets PacketSniffer.initial = [] /\
  PacketSniffer.totalPages PacketSniffer.initial = 0 /\
  spec_totalPages 0 PacketSniffer.packetsPerPage = 1 /\
  PacketSniffer.totalPages PacketSniffer.initial
    <> spec_totalPages
         (Z.of_nat (List.length (PacketSniffer.allPackets PacketSniffer.initial)))
         PacketSniffer.packetsPerPage.
Proof. repeat split; discriminate. Qed.

(** C2, amended: the page count is the ceiling of the buffer length over the
    page size 10, with no minimum: it is 0 for the empty buffer and
    [max 1 (ceil (L / 10))] for every buffer that holds a packet. *)
Theorem totalPages_ceiling (s : PacketSniffer.State) :
  let L := Z.of_nat (List.length (PacketSniffer.allPackets s)) in
  PacketSniffer.packetsPerPage = 10 /\
  (forall n, L <= n * 10 <-> PacketSniffer.totalPages s <= n) /\
  PacketSniffer.totalPages s = (if L =? 0 then 0 else spec_totalPages L 10).
Proof.
  intros L. split; [reflexivity|]. split.
  - intros n. apply Math_ceil_div_least. lia.
  - unfold PacketSniffer.totalPages, spec_totalPages, PacketSniffer.packetsPerPage.
    fold L. destruct (Z.eqb_spec L 0) as [E|E]; [now rewrite E|].
    assert (1 <= Js.Math_ceil_div L 10); [|lia].
    assert (HL : 0 < L) by lia.
    destruct (Z_le_gt_dec (Js.Math_ceil_div L 10) 0) as [C|C]; [|lia].
    apply (Math_ceil_div_least L 10 0) in C; lia.
Qed.

(** The clamping of the page buttons: [nextPage] on the last page and
    [prevPage] on page 1 change nothing. *)
Lemma nextPage_at_last (s : PacketSniffer.State) :
  PacketSniffer.totalPages s <= PacketSniffer.currentPage s ->
  Eff.exec PacketSniffer.nextPage s = s.
Proof.
  intros H. unfold PacketSniffer.nextPage, PacketSniffer.totalPages in *. unfold_eff.
  destruct (Z.ltb_spec (PacketSniffer.currentPage s)
              (Js.Math_ceil_div (Z.of_nat (List.length (PacketSniffer.allPackets s)))
                 PacketSniffer.packetsPerPage)); [lia|reflexivity].
Qed.

Lemma prevPage_at_first (s : PacketSniffer.State) :
  PacketSniffer.currentPage s <= 1 -> Eff.exec PacketSniffer.prevPage s = s.
Proof.
  intros H. unfold PacketSniffer.prevPage. unfold_eff.
  destruct (Z.gtb_spec (PacketSniffer.currentPage s) 1); [lia|reflexivity].
Qed.

(** The scenario of the specification: 25 packets make 3 pages, page 3 shows
    5 of them, and [nextPage] on page 3 stays there. *)
Example pages_scenario :
  let buffer := map sample_packet (map Z.of_nat (seq 0 25)) in
  let s3 := Eff.exec (PacketSniffer.nextPage ;; PacketSniffer.nextPage)
              (PacketSniffer.set_allPackets buffer PacketSniffer.initial) in
  PacketSniffer.totalPages s3 = 3 /\
  PacketSniffer.currentPage s3 = 3 /\
  List.length (PacketSniffer.displayedPackets s3) = 5%nat /\
  Eff.exec PacketSniffer.nextPage s3 = s3.
Proof. repeat split. Qed.

(** ** PacketSniffer: the capture session *)

Section CaptureFacts.
Import PacketSniffer.

Ltac run :=
  cbv beta iota zeta delta
    [startCapture stopCapture fetchLatestPackets tick selectInterface
     interfaceName_changed updateDisplayedPackets setInterval clearInterval
     truthy_handle truthy_string State_console
     Api.startPacketCapture Api.stopPacketCapture Api.getLatestPackets];
  unfold_eff.

Lemma capturing_wlan0_state :
  status capturing_wlan0 = Capturing /\
  intervals capturing_wlan0 = [mkTimer 1 FetchLatestPackets 3000] /\
  updateInterval capturing_wlan0 = Some 1.
Proof. repeat split. Qed.

(** [stopCapture] when the backend accepts: every variable but the console. *)
Lemma stopCapture_resolved (s : State) :
  silent (Eff.exec (stopCapture (Js.Resolved tt)) s) =
  silent (set_intervals
            (match updateInterval s with
             | Some h => if h =? 0 then intervals s
                         else filter (fun t => negb (handle t =? h)) (intervals s)
             | None => intervals s
             end)
            (set_error None (set_isCapturing false s))).
Proof.
  destruct s as [ap dp sp name cap err av [h|] page ivs nh con]; run; cbn;
    [|reflexivity].
  destruct (h =? 0); reflexivity.
Qed.

(** [stopCapture] when the backend refuses: only the error message and the
    console change. *)
Lemma stopCapture_rejected (s : State) (e : string) :
  silent (Eff.exec (stopCapture (Js.Rejected e)) s) =
  silent (set_error (Some
    "Failed to stop packet capture. The capture may have already been stopped."%string) s).
Proof. destruct s; reflexivity. Qed.

Lemma remembered_filtered (h : Z) (ivs : list Timer) :
  forallb (fun t => (handle t =? h) && negb (h =? 0)) ivs = true ->
  (if h =? 0 then ivs else filter (fun t => negb (handle t =? h)) ivs) = [].
Proof.
  induction ivs as [|t ivs IH]; cbn [forallb filter]; intros H.
  - now destruct (h =? 0).
  - apply andb_true_iff in H. destruct H as [Ht H].
    apply andb_true_iff in Ht. destruct Ht as [Hh Hz].
    rewrite Hh. cbn [negb].
    destruct (h =? 0); [discriminate|]. cbn [negb] in *.
    specialize (IH H). exact IH.
Qed.
Lemma filter_twice (h : Z) (ivs : list Timer) :
  filter (fun t => negb (handle t =? h)) (filter (fun t => negb (handle t =? h)) ivs)
  = filter (fun t => negb (handle t =? h)) ivs.
Proof.
  induction ivs as [|t ivs IH]; [reflexivity|].
  cbn [filter]. destruct (negb (handle t =? h)) eqn:E; [|exact IH].
  cbn [filter]. now rewrite E, IH.
Qed.

(** A second accepted [stopCapture] changes no variable of the script. *)
Lemma stopCapture_twice (s : State) :
  silent (Eff.exec (stopCapture (Js.Resolved tt)) (Eff.exec (stopCapture (Js.Resolved tt)) s))
  = silent (Eff.exec (stopCapture (Js.Resolved tt)) s).
Proof.
  rewrite (stopCapture_resolved (Eff.exec _ s)).
  destruct s as [ap dp sp name cap err av [h|] page ivs nh con]; run; cbn;
    [|reflexivity].
  destruct (h =? 0) eqn:E; cbn; rewrite ?E; cbn; [reflexivity|].
  now rewrite filter_twice.
Qed.

(** [fetchLatestPackets] when the backend refuses: only the console changes. *)
Lemma fetchLatestPackets_rejected (s : State) (e : string) :
  fetchLatestPackets (Js.Rejected e) s =
  (Js.Resolved tt,
   push_log (mkLog Error "Failed to fetch latest packets:" (Some e))
     (push_log (mkLog Error "Failed to get latest packets:" (Some e)) s)).
Proof. reflexivity. Qed.

(** [fetchLatestPackets] when the backend answers: the buffer afterwards. *)
Lemma fetchLatestPackets_resolved (s : State) (newPackets : list Api.PacketInfo) :
  allPackets (Eff.exec (fetchLatestPackets (Js.Resolved newPackets)) s) =
  match newPackets with
  | [] => allPackets s
  | _ :: _ => Js.sort newest_first (allPackets s ++ newPackets)
  end.
Proof. destruct newPackets; reflexivity. Qed.

Lemma newest_first_sorted (l : list Api.PacketInfo) :
  StronglySorted (fun a b => Api.timestamp b <= Api.timestamp a)
    (Js.sort newest_first l).
Proof.
  assert (E : forall a b,
    Js.in_order newest_first a b <-> Api.timestamp b <= Api.timestamp a).
  { intros a b. unfold Js.in_order, newest_first, Js.sign. rewrite Z.compare_gt_iff. lia. }
  assert (H : StronglySorted (Js.in_order newest_first) (Js.sort newest_first l)).
  { apply sort_sorted.
    - intros x y. unfold newest_first, Js.sign. rewrite !Z.compare_gt_iff. lia.
    - intros x y z. rewrite !E. lia. }
  induction H as [|a l' Hs IH Ha]; constructor; [exact IH|].
  eapply Forall_impl; [|exact Ha]. intros b. apply E.
Qed.
End CaptureFacts.

(** C1, as stated, fails when the backend refuses the stop: the session
    that captures stays Capturing and its interval stays active. *)
Lemma stopCapture_rejected_keeps_capturing :
  PacketSniffer.status capturing_wlan0 = PacketSniffer.Capturing /\
  PacketSniffer.status
    (Eff.exec (PacketSniffer.stopCapture (Js.Rejected "not active")) capturing_wlan0)
    <> PacketSniffer.Idle /\
  PacketSniffer.polling
    (Eff.exec (PacketSniffer.stopCapture (Js.Rejected "not active")) capturing_wlan0)
    = true.
Proof. repeat split; discriminate. Qed.

(** C1, amended: when the backend accepts the stop, in every state, the
    session becomes Idle, the interval the component remembers is cleared and
    the others stay (so no interval is left when the remembered one is the
    only one active), and a second accepted stop changes no variable; when the
    backend refuses, in every state, the status, the intervals and the
    remembered handle stay as they were: only the error message is set, and
    the failure is written to the console. *)
Theorem stopCapture_outcomes (s : PacketSniffer.State) :
  (let s' := Eff.exec (PacketSniffer.stopCapture (Js.Resolved tt)) s in
   PacketSniffer.status s' = PacketSniffer.Idle /\
   PacketSniffer.intervals s' =
     match PacketSniffer.updateInterval s with
     | Some h =>
         if h =? 0 then PacketSniffer.intervals s
         else filter (fun t => negb (PacketSniffer.handle t =? h)) (PacketSniffer.intervals s)
     | None => PacketSniffer.intervals s
     end /\
   (forall h, PacketSniffer.updateInterval s = Some h -> h <> 0 ->
      ~ In h (map PacketSniffer.handle (PacketSniffer.intervals s'))) /\
   (PacketSniffer.remembers_intervals s = true -> PacketSniffer.polling s' = false) /\
   PacketSniffer.silent (Eff.exec (PacketSniffer.stopCapture (Js.Resolved tt)) s')
     = PacketSniffer.silent s') /\
  (forall e,
   let s' := Eff.exec (PacketSniffer.stopCapture (Js.Rejected e)) s in
   let failure :=
     "Failed to stop packet capture. The capture may have already been stopped."%string in
   PacketSniffer.status s' = PacketSniffer.status s /\
   PacketSniffer.intervals s' = PacketSniffer.intervals s /\
   PacketSniffer.updateInterval s' = PacketSniffer.updateInterval s /\
   PacketSniffer.error s' = Some failure /\
   PacketSniffer.silent s' = PacketSniffer.silent (PacketSniffer.set_error (Some failure) s) /\
   PacketSniffer.console s' =
     PacketSniffer.console s ++
       [mkLog Error "Failed to stop packet capture:" (Some e);
        mkLog Error "Failed to stop packet capture:" (Some e)]).
Proof.
  split.
  - cbv zeta.
    pose proof (f_equal PacketSniffer.isCapturing (stopCapture_resolved s)) as Ec.
    pose proof (f_equal PacketSniffer.intervals (stopCapture_resolved s)) as Ei.
    cbn in Ec, Ei.
    split; [unfold PacketSniffer.status; now rewrite Ec|].
    split; [exact Ei|]. split; [|split].
    + intros h Hu Hz. rewrite Ei, Hu.
      destruct (Z.eqb_spec h 0) as [C|_]; [contradiction|].
      intros Hin. apply in_map_iff in Hin. destruct Hin as [t [Et Hin]].
      apply filter_In in Hin. destruct Hin as [_ Hin].
      rewrite Et, Z.eqb_refl in Hin. discriminate.
    + intros Hr. unfold PacketSniffer.polling. rewrite Ei.
      unfold PacketSniffer.remembers_intervals in Hr.
      destruct (PacketSniffer.updateInterval s) as [h|].
      * now rewrite (remembered_filtered h _ Hr).
      * destruct (PacketSniffer.intervals s); [reflexivity|discriminate].
    + apply stopCapture_twice.
  - intros e. cbv zeta.
    split; [now destruct s|]. split; [now destruct s|]. split; [now destruct s|].
    split; [now destruct s|]. split; [apply stopCapture_rejected|].
    destruct s. cbn. now rewrite <- app_assoc.
Qed.

(** A capturing session is stopped: Idle, and no interval is left.  After
    two accepted starts the stop still leaves the session Idle and clears the
    interval of the second start; the interval of the first one stays. *)
Lemma stopCapture_outcomes_witness :
  PacketSniffer.remembers_intervals capturing_wlan0 = true /\
  PacketSniffer.status
    (Eff.exec (PacketSniffer.stopCapture (Js.Resolved tt)) capturing_wlan0)
    = PacketSniffer.Idle /\
  PacketSniffer.polling
    (Eff.exec (PacketSniffer.stopCapture (Js.Resolved tt)) capturing_wlan0)
    = false /\
  PacketSniffer.remembers_intervals started_twice = false /\
  PacketSniffer.status
    (Eff.exec (PacketSniffer.stopCapture (Js.Resolved tt)) started_twice)
    = PacketSniffer.Idle /\
  ~ In 2 (map PacketSniffer.handle
            (PacketSniffer.intervals
               (Eff.exec (PacketSniffer.stopCapture (Js.Resolved tt)) started_twice))).
Proof.
  split; [reflexivity|].
  destruct (stopCapture_outcomes capturing_wlan0) as [(I & _ & _ & P & _) _].
  split; [exact I|]. split; [exact (P eq_refl)|].
  split; [reflexivity|].
  destruct (stopCapture_outcomes started_twice) as [(I2 & _ & C2 & _) _].
  split; [exact I2|]. apply (C2 2); [reflexivity|discriminate].
Defined.

(** C3, as stated, fails on both sides: choosing another interface while
    Idle discards the buffer and the page shown, and choosing one while
    Capturing leaves the session Capturing with its interval active. *)
Lemma selectInterface_ignores_status :
  (PacketSniffer.status idle_with_packets = PacketSniffer.Idle /\
   PacketSniffer.allPackets (Eff.exec (PacketSniffer.selectInterface "eth0") idle_with_packets)
     <> PacketSniffer.allPackets idle_with_packets /\
   PacketSniffer.displayedPackets
       (Eff.exec (PacketSniffer.selectInterface "eth0") idle_with_packets)
     <> PacketSniffer.displayedPackets idle_with_packets) /\
  (PacketSniffer.status capturing_wlan0 = PacketSniffer.Capturing /\
   PacketSniffer.status (Eff.exec (PacketSniffer.selectInterface "eth0") capturing_wlan0)
     = PacketSniffer.Capturing /\
   PacketSniffer.polling (Eff.exec (PacketSniffer.selectInterface "eth0") capturing_wlan0)
     = true).
Proof. repeat split; discriminate. Qed.

(** C3, amended: choosing a different, non-empty interface discards the
    accumulated and the displayed packets, goes back to page 1 and drops the
    selection, whether the session is Capturing or Idle; it leaves the status
    of the session and its intervals as they were. *)
Theorem selectInterface_clears (s : PacketSniffer.State) (name : string) :
  name <> ""%string -> name <> PacketSniffer.interfaceName s ->
  let s' := Eff.exec (PacketSniffer.selectInterface name) s in
  PacketSniffer.interfaceName s' = name /\
  PacketSniffer.allPackets s' = [] /\
  PacketSniffer.displayedPackets s' = [] /\
  PacketSniffer.currentPage s' = 1 /\
  PacketSniffer.selectedPacket s' = None /\
  PacketSniffer.status s' = PacketSniffer.status s /\
  PacketSniffer.intervals s' = PacketSniffer.intervals s /\
  PacketSniffer.updateInterval s' = PacketSniffer.updateInterval s.
Proof.
  intros Hne Hdiff. cbv zeta.
  unfold PacketSniffer.selectInterface, PacketSniffer.interfaceName_changed,
    PacketSniffer.truthy_string.
  unfold_eff.
  destruct (String.eqb_spec (PacketSniffer.interfaceName s) name) as [E|_];
    [now subst name|].
  cbn.
  destruct (String.eqb_spec name "") as [E|_]; [contradiction|].
  repeat split.
Qed.

(** Both sessions of the counterexample, on the interface ["eth0"]. *)
Lemma selectInterface_clears_witness :
  ("eth0" <> "" /\ "eth0" <> PacketSniffer.interfaceName idle_with_packets)%string /\
  PacketSniffer.allPackets (Eff.exec (PacketSniffer.selectInterface "eth0") idle_with_packets)
    = [] /\
  PacketSniffer.intervals (Eff.exec (PacketSniffer.selectInterface "eth0") capturing_wlan0)
    = PacketSniffer.intervals capturing_wlan0.
Proof.
  split; [split; discriminate|].
  split.
  - apply (selectInterface_clears idle_with_packets "eth0"); discriminate.
  - apply (selectInterface_clears capturing_wlan0 "eth0"); discriminate.
Defined.

(** C8: a tick of an interval of a capturing session whose poll the backend
    refuses ends normally: the failure is written to the console as an error
    and nothing else changes, so the session stays Capturing, the buffer and
    the page shown are the same, and the interval stays active for the next
    tick. *)
Theorem poll_failure_swallowed (s : PacketSniffer.State) (t : PacketSniffer.Timer)
    (e : string) :
  PacketSniffer.status s = PacketSniffer.Capturing ->
  In t (PacketSniffer.intervals s) ->
  let r := PacketSniffer.tick t (Js.Rejected e) s in
  fst r = Js.Resolved tt /\
  PacketSniffer.status (snd r) = PacketSniffer.Capturing /\
  PacketSniffer.allPackets (snd r) = PacketSniffer.allPackets s /\
  PacketSniffer.displayedPackets (snd r) = PacketSniffer.displayedPackets s /\
  PacketSniffer.intervals (snd r) = PacketSniffer.intervals s /\
  In t (PacketSniffer.intervals (snd r)) /\
  PacketSniffer.silent (snd r) = PacketSniffer.silent s /\
  PacketSniffer.console (snd r) =
    PacketSniffer.console s ++
      [mkLog Error "Failed to get latest packets:" (Some e);
       mkLog Error "Failed to fetch latest packets:" (Some e)].
Proof.
  intros Hc Ht. cbv zeta.
  unfold PacketSniffer.tick. destruct (PacketSniffer.callback t).
  rewrite fetchLatestPackets_rejected. cbn [fst snd].
  repeat split; try assumption.
  cbn. now rewrite <- app_assoc.
Qed.

Lemma poll_failure_swallowed_witness :
  PacketSniffer.status capturing_wlan0 = PacketSniffer.Capturing /\
  In (PacketSniffer.mkTimer 1 PacketSniffer.FetchLatestPackets 3000)
     (PacketSniffer.intervals capturing_wlan0) /\
  PacketSniffer.status
    (snd (PacketSniffer.tick (PacketSniffer.mkTimer 1 PacketSniffer.FetchLatestPackets 3000)
            (Js.Rejected "timeout") capturing_wlan0))
    = PacketSniffer.Capturing.
Proof.
  split; [reflexivity|]. split; [now left|].
  apply (poll_failure_swallowed capturing_wlan0
           (PacketSniffer.mkTimer 1 PacketSniffer.FetchLatestPackets 3000) "timeout");
    [reflexivity | now left].
Defined.

(** C9: on an Idle session, a start that the backend refuses leaves the
    session Idle, creates no interval and sets the error message; a start
    that it accepts makes the session Capturing and creates one interval of
    3000 ms (3 seconds) for [fetchLatestPackets], whose accepted poll leaves
    in the buffer the packets it held and the new ones. *)
Theorem startCapture_outcomes (s : PacketSniffer.State) :
  PacketSniffer.status s = PacketSniffer.Idle ->
  (forall e,
   let s' := Eff.exec (PacketSniffer.startCapture (Js.Rejected e)) s in
   PacketSniffer.status s' = PacketSniffer.Idle /\
   PacketSniffer.intervals s' = PacketSniffer.intervals s /\
   PacketSniffer.updateInterval s' = PacketSniffer.updateInterval s /\
   PacketSniffer.error s' = Some
     "Failed to start packet capture. Please check your permissions and try again."%string) /\
  (let s' := Eff.exec (PacketSniffer.startCapture (Js.Resolved tt)) s in
   let poll := PacketSniffer.mkTimer (PacketSniffer.nextHandle s)
                 PacketSniffer.FetchLatestPackets (3 * 1000) in
   PacketSniffer.status s' = PacketSniffer.Capturing /\
   PacketSniffer.intervals s' = PacketSniffer.intervals s ++ [poll] /\
   PacketSniffer.updateInterval s' = Some (PacketSniffer.handle poll) /\
   forall (st : PacketSniffer.State) (newPackets : list Api.PacketInfo),
     Permutation
       (PacketSniffer.allPackets (Eff.exec (PacketSniffer.tick poll (Js.Resolved newPackets)) st))
       (PacketSniffer.allPackets st ++ newPackets)).
Proof.
  intros Hidle. split.
  - intros e. cbv zeta. repeat split. exact Hidle.
  - cbv zeta. repeat split.
    intros st newPackets. unfold PacketSniffer.tick. cbn [PacketSniffer.callback].
    rewrite fetchLatestPackets_resolved.
    destruct newPackets as [|p newPackets]; [now rewrite app_nil_r|].
    apply sort_perm.
Qed.

Lemma startCapture_outcomes_witness :
  PacketSniffer.status PacketSniffer.initial = PacketSniffer.Idle /\
  PacketSniffer.status
    (Eff.exec (PacketSniffer.startCapture (Js.Rejected "permission denied"))
       PacketSniffer.initial) = PacketSniffer.Idle /\
  PacketSniffer.intervals
    (Eff.exec (PacketSniffer.startCapture (Js.Resolved tt)) PacketSniffer.initial)
    = [PacketSniffer.mkTimer 1 PacketSniffer.FetchLatestPackets 3000].
Proof.
  split; [reflexivity|].
  destruct (startCapture_outcomes PacketSniffer.initial eq_refl) as [R (_ & A & _)].
  split; [apply (R "permission denied"%string) | exact A].
Defined.

(** ** The page: the store of networks *)

Section MapFacts.
Context {V : Type}.
Implicit Types (m : JsMap.t V) (k : string) (v : V).

Lemma set_set k v m : JsMap.set k v (JsMap.set k v m) = JsMap.set k v m.
Proof.
  induction m as [|[k' v'] m IH]; cbn [JsMap.set].
  - now rewrite String.eqb_refl.
  - destruct (String.eqb k' k) eqn:E; cbn [JsMap.set].
    + now rewrite String.eqb_refl.
    + now rewrite E, IH.
Qed.

Lemma get_set_same k v m : JsMap.get k (JsMap.set k v m) = Some v.
Proof.
  induction m as [|[k' v'] m IH]; cbn [JsMap.set JsMap.get].
  - now rewrite String.eqb_refl.
  - destruct (String.eqb k' k) eqn:E; cbn [JsMap.get].
    + now rewrite String.eqb_refl.
    + now rewrite E.
Qed.

Lemma get_set_other k k' v m :
  k <> k' -> JsMap.get k' (JsMap.set k v m) = JsMap.get k' m.
Proof.
  intros Hk. induction m as [|[k0 v0] m IH]; cbn [JsMap.set JsMap.get].
  - destruct (String.eqb_spec k k'); [contradiction|reflexivity].
  - destruct (String.eqb_spec k0 k) as [E|E]; cbn [JsMap.get].
    + subst k0. destruct (String.eqb_spec k k'); [contradiction|reflexivity].
    + now rewrite IH.
Qed.

Lemma in_set k v m k' v' :
  In (k', v') (JsMap.set k v m) -> (k' = k /\ v' = v) \/ In (k', v') m.
Proof.
  induction m as [|[k0 v0] m IH]; cbn [JsMap.set]; intros H.
  - destruct H as [H|[]]. left. now inversion H.
  - destruct (String.eqb_spec k0 k) as [E|E].
    + destruct H as [H|H]; [left; now inversion H|right; now right].
    + destruct H as [H|H]; [right; now left|].
      destruct (IH H) as [L|R]; [now left|right; now right].
Qed.

Lemma keys_set k v m :
  JsMap.keys (JsMap.set k v m) =
  if existsb (String.eqb k) (JsMap.keys m) then JsMap.keys m else JsMap.keys m ++ [k].
Proof.
  induction m as [|[k0 v0] m IH]; cbn [JsMap.set JsMap.keys map existsb fst app];
    [reflexivity|].
  rewrite (String.eqb_sym k k0).
  destruct (String.eqb_spec k0 k) as [E|E]; cbn [map fst orb].
  - now subst k0.
  - fold (JsMap.keys (JsMap.set k v m)). rewrite IH. fold (JsMap.keys m).
    now destruct (existsb (String.eqb k) (JsMap.keys m)).
Qed.

Lemma NoDup_keys_set k v m :
  NoDup (JsMap.keys m) -> NoDup (JsMap.keys (JsMap.set k v m)).
Proof.
  intros H. rewrite keys_set.
  destruct (existsb (String.eqb k) (JsMap.keys m)) eqn:E; [exact H|].
  apply NoDup_app; [exact H | repeat constructor; intros [] | ].
  intros x Hx [Hk|[]]. subst x.
  assert (C : existsb (String.eqb k) (JsMap.keys m) = true).
  { apply existsb_exists. exists k. split; [exact Hx|apply String.eqb_refl]. }
  congruence.
Qed.

Lemma get_in k v m : JsMap.get k m = Some v -> In (k, v) m.
Proof.
  induction m as [|[k0 v0] m IH]; cbn [JsMap.get]; [discriminate|].
  destruct (String.eqb_spec k0 k) as [E|E]; intros H.
  - left. congruence.
  - right. now apply IH.
Qed.

Lemma in_get k v m : NoDup (JsMap.keys m) -> In (k, v) m -> JsMap.get k m = Some v.
Proof.
  induction m as [|[k0 v0] m IH]; cbn [JsMap.get JsMap.keys map fst]; intros Hn H;
    [destruct H|].
  apply NoDup_cons_iff in Hn. destruct Hn as [Hk Hn].
  destruct H as [H|H].
  - inversion H; subst. now rewrite String.eqb_refl.
  - destruct (String.eqb_spec k0 k) as [E|E]; [|now apply IH].
    subst k0. exfalso. apply Hk.
    change k with (fst (k, v)). now apply in_map.
Qed.
End MapFacts.

Section StoreFacts.
Import Api Page.

Lemma find_app {A : Type} (f : A -> bool) (l1 l2 : list A) :
  find f (l1 ++ l2) = match find f l1 with Some x => Some x | None => find f l2 end.
Proof.
  induction l1 as [|x l1 IH]; [reflexivity|].
  cbn [app find]. now destruct (f x).
Qed.

Lemma last_observation_app (k : string) (arr b : list WiFiNetwork) :
  last_observation k (arr ++ b) =
  match last_observation k b with
  | Some r => Some r
  | None => last_observation k arr
  end.
Proof. unfold last_observation. now rewrite rev_app_distr, find_app. Qed.

Lemma last_observation_cons (k : string) (r : WiFiNetwork) (b : list WiFiNetwork) :
  last_observation k (r :: b) =
  match last_observation k b with
  | Some r' => Some r'
  | None => if String.eqb (bssid r) k then Some r else None
  end.
Proof. apply (last_observation_app k [r] b). Qed.

Lemma last_observation_bssid (k : string) (arr : list WiFiNetwork) (r : WiFiNetwork) :
  last_observation k arr = Some r -> bssid r = k /\ In r arr.
Proof.
  unfold last_observation. intros H. apply find_some in H. destruct H as [Hi Hk].
  split; [now apply String.eqb_eq | now apply in_rev].
Qed.

(** An identity that arrived has a last observation. *)
Lemma last_observation_exists (arr : list WiFiNetwork) (r : WiFiNetwork) :
  In r arr -> exists r', last_observation (bssid r) arr = Some r'.
Proof.
  unfold last_observation. intros H.
  destruct (find _ (rev arr)) as [r'|] eqn:E; [now exists r'|].
  apply in_rev in H. apply (find_none _ _ E r) in H.
  now rewrite String.eqb_refl in H.
Qed.

Lemma get_set_each (k : string) (b : list WiFiNetwork) (m : JsMap.t WiFiNetwork) :
  JsMap.get k (set_each b m) =
  match last_observation k b with
  | Some r => Some r
  | None => JsMap.get k m
  end.
Proof.
  revert m. induction b as [|r b IH]; intros m; [reflexivity|].
  change (set_each (r :: b) m) with (set_each b (upsert r m)).
  rewrite IH, last_observation_cons.
  destruct (last_observation k b); [reflexivity|].
  unfold upsert. destruct (String.eqb_spec (bssid r) k) as [E|E].
  - subst k. apply get_set_same.
  - now apply get_set_other.
Qed.

Lemma set_each_keeps (b : list WiFiNetwork) (m : JsMap.t WiFiNetwork) :
  NoDup (JsMap.keys m) /\ (forall k r, In (k, r) m -> k = bssid r) ->
  NoDup (JsMap.keys (set_each b m)) /\
  (forall k r, In (k, r) (set_each b m) -> k = bssid r).
Proof.
  revert m. induction b as [|n b IH]; intros m [Hn Hk]; [now split|].
  change (set_each (n :: b) m) with (set_each b (upsert n m)).
  apply IH. split.
  - now apply NoDup_keys_set.
  - intros k r H. apply in_set in H. destruct H as [[-> ->]|H]; [reflexivity|].
    now apply Hk.
Qed.

Lemma reflects_empty : reflects JsMap.empty [].
Proof. repeat split; [constructor | intros k r []]. Qed.

(** A batch that is merged extends the arrivals. *)
Lemma reflects_set_each (b arr : list WiFiNetwork) (m : JsMap.t WiFiNetwork) :
  reflects m arr -> reflects (set_each b m) (arr ++ b).
Proof.
  intros (Hn & Hk & Hg).
  destruct (set_each_keeps b m (conj Hn Hk)) as [Hn' Hk'].
  repeat split; [exact Hn' | exact Hk' |].
  intros k. now rewrite get_set_each, last_observation_app, Hg.
Qed.

(** The last batch merged once more, as a second handler does, changes
    nothing of what the store reflects. *)
Lemma reflects_again (b arr : list WiFiNetwork) (m : JsMap.t WiFiNetwork) :
  reflects m (arr ++ b) -> reflects (set_each b m) (arr ++ b).
Proof.
  intros (Hn & Hk & Hg).
  destruct (set_each_keeps b m (conj Hn Hk)) as [Hn' Hk'].
  repeat split; [exact Hn' | exact Hk' |].
  intros k. rewrite get_set_each, Hg, last_observation_app.
  now destruct (last_observation k b).
Qed.

(** What a store that reflects the arrivals shows as its values. *)
Lemma reflects_values (m : JsMap.t WiFiNetwork) (arr : list WiFiNetwork) :
  reflects m arr ->
  NoDup (map bssid (JsMap.values m)) /\
  (forall r, In r (JsMap.values m) <-> last_observation (bssid r) arr = Some r) /\
  (forall id, In id (map bssid (JsMap.values m)) <-> In id (map bssid arr)).
Proof.
  intros (Hn & Hk & Hg).
  assert (Hkeys : map bssid (JsMap.values m) = JsMap.keys m).
  { unfold JsMap.values, JsMap.keys. rewrite map_map. apply map_ext_in.
    intros [k r] H. symmetry. now apply Hk. }
  assert (Hv : forall r, In r (JsMap.values m) <-> last_observation (bssid r) arr = Some r).
  { intros r. rewrite <- Hg. split; intros H.
    - apply in_map_iff in H. destruct H as [[k r'] [E H]]. cbn in E. subst r'.
      rewrite (Hk _ _ H) in H. now apply in_get.
    - apply get_in in H. change r with (snd (bssid r, r)). now apply in_map. }
  split; [now rewrite Hkeys|]. split; [exact Hv|].
  intros id. split; intros H.
  - apply in_map_iff in H. destruct H as [r [E H]]. subst id.
    apply Hv, last_observation_bssid in H. now apply in_map.
  - apply in_map_iff in H. destruct H as [r [E H]]. subst id.
    destruct (last_observation_exists arr r H) as [r' Hr'].
    destruct (last_observation_bssid _ _ _ Hr') as [E _].
    rewrite <- E. apply in_map. apply Hv. now rewrite E.
Qed.
End StoreFacts.

(** ** The page: one scan *)

Section ScanFacts.
Import Api Page.

Ltac run :=
  cbv beta iota zeta delta
    [performScan listen unlisten onScanProgress emit State_console
     Api.scanWifi Api.getChannelData];
  unfold_eff.

Lemma onScanProgress_spec (payload : list WiFiNetwork) (s : State) :
  exists s', onScanProgress payload s = (Js.Resolved tt, s') /\
    same_frame s s' /\
    uniqueNetworks s' = set_each payload (uniqueNetworks s) /\
    networks s' = JsMap.values (uniqueNetworks s').
Proof. eexists. split; [reflexivity|]. repeat split. Qed.

Lemma deliver_frame (registered : list Z) (payload : list WiFiNetwork) (s : State) :
  exists s', deliver registered payload s = (Js.Resolved tt, s') /\ same_frame s s'.
Proof.
  revert s. induction registered as [|l registered IH]; intros s.
  - exists s. repeat split.
  - destruct (onScanProgress_spec payload s) as (s1 & E1 & F1 & _).
    destruct (IH s1) as (s2 & E2 & F2).
    exists s2. cbn [deliver]. unfold Eff.bind. rewrite E1. split; [exact E2|].
    unfold same_frame in *. intuition congruence.
Qed.

(** The second and later handlers of one event keep what the first one
    established. *)
Lemma deliver_again (registered : list Z) (b arr : list WiFiNetwork) (s : State) :
  networks s = JsMap.values (uniqueNetworks s) ->
  reflects (uniqueNetworks s) (arr ++ b) ->
  exists s', deliver registered b s = (Js.Resolved tt, s') /\
    networks s' = JsMap.values (uniqueNetworks s') /\
    reflects (uniqueNetworks s') (arr ++ b).
Proof.
  revert s. induction registered as [|l registered IH]; intros s Hv Hr.
  - exists s. split; [reflexivity|]. split; assumption.
  - destruct (onScanProgress_spec b s) as (s1 & E1 & _ & U1 & V1).
    destruct (IH s1 V1) as (s2 & E2 & V2 & R2).
    { rewrite U1. now apply reflects_again. }
    exists s2. cbn [deliver]. unfold Eff.bind. rewrite E1.
    split; [exact E2|]. split; assumption.
Qed.

Lemma emit_spec (b arr : list WiFiNetwork) (s : State) :
  listeners s <> [] ->
  reflects (uniqueNetworks s) arr ->
  exists s', emit b s = (Js.Resolved tt, s') /\
    same_frame s s' /\
    networks s' = JsMap.values (uniqueNetworks s') /\
    reflects (uniqueNetworks s') (arr ++ b).
Proof.
  intros Hl Hr.
  destruct (deliver_frame (listeners s) b s) as (s' & E & F).
  exists s'. split; [exact E|]. split; [exact F|].
  unfold emit, Eff.bind, Eff.gets in E.
  destruct (listeners s) as [|l registered]; [contradiction|].
  cbn [deliver] in E. unfold Eff.bind in E.
  destruct (onScanProgress_spec b s) as (s1 & E1 & _ & U1 & V1).
  rewrite E1 in E.
  destruct (deliver_again registered b arr s1 V1) as (s2 & E2 & V2 & R2).
  { rewrite U1. now apply reflects_set_each. }
  rewrite E2 in E. inversion E; subst s2. split; assumption.
Qed.

Lemma emit_all_frame (progress : list (list WiFiNetwork)) (s : State) :
  exists s', emit_all progress s = (Js.Resolved tt, s') /\ same_frame s s'.
Proof.
  revert s. induction progress as [|b progress IH]; intros s.
  - exists s. repeat split.
  - destruct (deliver_frame (listeners s) b s) as (s1 & E1 & F1).
    destruct (IH s1) as (s2 & E2 & F2).
    exists s2. cbn [emit_all]. unfold Eff.bind at 1.
    change (emit b s) with (deliver (listeners s) b s). rewrite E1.
    split; [exact E2|]. unfold same_frame in *. intuition congruence.
Qed.

Lemma emit_all_spec (progress : list (list WiFiNetwork)) (arr : list WiFiNetwork)
    (s : State) :
  listeners s <> [] ->
  networks s = JsMap.values (uniqueNetworks s) ->
  reflects (uniqueNetworks s) arr ->
  exists s', emit_all progress s = (Js.Resolved tt, s') /\
    same_frame s s' /\
    networks s' = JsMap.values (uniqueNetworks s') /\
    reflects (uniqueNetworks s') (arr ++ List.concat progress).
Proof.
  revert s arr. induction progress as [|b progress IH]; intros s arr Hl Hv Hr.
  - exists s. cbn [List.concat]. rewrite app_nil_r.
    split; [reflexivity|]. split; [repeat split|]. split; assumption.
  - destruct (emit_spec b arr s Hl Hr) as (s1 & E1 & F1 & V1 & R1).
    destruct (IH s1 (arr ++ b)) as (s2 & E2 & F2 & V2 & R2); try assumption.
    { destruct F1 as [-> _]. exact Hl. }
    exists s2. cbn [emit_all List.concat]. unfold Eff.bind at 1. rewrite E1.
    split; [exact E2|]. rewrite app_assoc.
    split; [unfold same_frame in *; intuition congruence|]. split; assumption.
Qed.
(** A scan whose calls all succeed: the store and the list shown. *)
Lemma performScan_merges (s : State) (progress : list (list WiFiNetwork))
    (final : list WiFiNetwork) (channels : Js.Settled (list ChannelData.t)) :
  isScanning s = false ->
  let s' := Eff.exec (performScan (Js.Resolved tt) progress (Js.Resolved final) channels) s in
  networks s' = JsMap.values (uniqueNetworks s') /\
  reflects (uniqueNetworks s') (List.concat progress ++ final).
Proof.
  destruct s as [nets sel cd vis scanning uniq ls nl con]. cbn [isScanning].
  intros ->. cbv zeta. run. cbn.
  match goal with
  | |- context [emit_all progress ?st] =>
      destruct (emit_all_spec progress [] st) as (s3 & E & F & V & R)
  end.
  - cbn. now destruct ls.
  - reflexivity.
  - apply reflects_empty.
  - rewrite E. clear E F.
    destruct s3 as [nets3 sel3 cd3 vis3 scanning3 uniq3 ls3 nl3 con3].
    cbn [networks uniqueNetworks app] in V, R. subst nets3.
    destruct final as [|r final].
    + rewrite app_nil_r. cbn.
      destruct (Z.of_nat (Datatypes.length (JsMap.values uniq3)) >? 0);
        [destruct channels|]; cbn; (split; [reflexivity|exact R]).
    + cbn -[set_each].
      destruct (Z.of_nat (Datatypes.length (map snd (set_each (r :: final) uniq3))) >? 0);
        [destruct channels|]; cbn -[set_each];
        (split; [reflexivity|now apply reflects_set_each]).
Qed.
(** A scan whose calls all succeed removes the handler it registered. *)
Lemma performScan_unlistens (s : State) (progress : list (list WiFiNetwork))
    (final : list WiFiNetwork) (data : list ChannelData.t) :
  isScanning s = false ->
  listeners (Eff.exec (performScan (Js.Resolved tt) progress (Js.Resolved final)
                         (Js.Resolved data)) s)
  = filter (fun l => negb (l =? nextListener s)) (listeners s ++ [nextListener s]).
Proof.
  destruct s as [nets sel cd vis scanning uniq ls nl con]. cbn [isScanning nextListener].
  intros ->. run. cbn.
  match goal with
  | |- context [emit_all progress ?st] =>
      destruct (emit_all_frame progress st) as (s3 & E & F)
  end.
  rewrite E. clear E.
  destruct s3 as [nets3 sel3 cd3 vis3 scanning3 uniq3 ls3 nl3 con3].
  destruct F as (Fl & Fn & _). cbn in Fl, Fn. subst ls3 nl3.
  destruct (Z.of_nat (Datatypes.length final) >? 0); cbn -[set_each];
    match goal with
    | |- context [Z.of_nat ?n >? 0] => destruct (Z.of_nat n >? 0)
    end; cbn -[set_each]; reflexivity.
Qed.

(** A scan whose [scan_wifi] call fails, on any state. *)
Lemma performScan_scan_rejected (s : State) (progress : list (list WiFiNetwork))
    (e : string) (channels : Js.Settled (list ChannelData.t)) :
  let s' := Eff.exec (performScan (Js.Resolved tt) progress (Js.Rejected e) channels) s in
  listeners s' = (if isScanning s then listeners s else listeners s ++ [nextListener s]) /\
  isScanning s' = isScanning s.
Proof.
  destruct s as [nets sel cd vis scanning uniq ls nl con]. cbn [isScanning nextListener].
  cbv zeta. destruct scanning; run; cbn; [split; reflexivity|].
  match goal with
  | |- context [emit_all progress ?st] =>
      destruct (emit_all_frame progress st) as (s3 & E & F)
  end.
  rewrite E. clear E.
  destruct s3 as [nets3 sel3 cd3 vis3 scanning3 uniq3 ls3 nl3 con3].
  destruct F as (Fl & _). cbn in Fl. subst ls3. split; reflexivity.
Qed.
End ScanFacts.

(** C4: that the progress subscription is removed whether the final scan
    call succeeds or fails does not hold of the code when it fails.  On any
    state, a scan whose [listen] succeeds and whose [scan_wifi] call is
    rejected ends with the handler it registered still registered: the
    [catch] is entered before [unlisten()] is reached, and only [isScanning]
    is reset. *)
Theorem scan_failure_leaks_listener (s : Page.State) (progress : list (list Api.WiFiNetwork))
    (e : string) (channels : Js.Settled (list Api.ChannelData.t)) :
  let s' := Eff.exec (Page.performScan (Js.Resolved tt) progress (Js.Rejected e) channels) s in
  Page.listeners s' =
    (if Page.isScanning s then Page.listeners s
     else Page.listeners s ++ [Page.nextListener s]) /\
  Page.isScanning s' = Page.isScanning s.
Proof. apply performScan_scan_rejected. Qed.

(** Two failed scans from the initial state leave two handlers registered. *)
Example two_failed_scans :
  let failed := Page.performScan (Js.Resolved tt) [] (Js.Rejected "scan failed") (Js.Resolved []) in
  Page.listeners (Eff.exec failed Page.initial) = [1] /\
  Page.listeners (Eff.exec failed (Eff.exec failed Page.initial)) = [1; 2].
Proof. split; reflexivity. Qed.

(** C5: after a scan whose calls succeed, the list of networks shown holds
    one record per identity, the identities are those that arrived in the
    progress events and the final batch, and each record is the last
    observation of its identity in arrival order. *)
Theorem scan_merge (s : Page.State) (progress : list (list Api.WiFiNetwork))
    (final : list Api.WiFiNetwork) (channels : Js.Settled (list Api.ChannelData.t)) :
  Page.isScanning s = false ->
  let arrivals := List.concat progress ++ final in
  let snapshot := Page.networks
    (Eff.exec (Page.performScan (Js.Resolved tt) progress (Js.Resolved final) channels) s) in
  NoDup (map Api.bssid snapshot) /\
  (forall id, In id (map Api.bssid snapshot) <-> In id (map Api.bssid arrivals)) /\
  (forall r, In r snapshot <-> last_observation (Api.bssid r) arrivals = Some r).
Proof.
  intros Hs. cbv zeta.
  destruct (performScan_merges s progress final channels Hs) as [V R].
  cbv zeta in V. rewrite V.
  destruct (reflects_values _ _ R) as (N & L & I).
  split; [exact N|]. split; [exact I|exact L].
Qed.

(** The scenario of the specification: A on 6, B on 6, then A on 11. *)
Lemma scan_merge_witness :
  Page.isScanning Page.initial = false /\
  Page.networks
    (Eff.exec (Page.performScan (Js.Resolved tt)
                 [[network "A" 6]; [network "B" 6]; [network "A" 11]]
                 (Js.Resolved []) (Js.Resolved [])) Page.initial)
  = [network "A" 11; network "B" 6] /\
  NoDup (map Api.bssid (Page.networks
    (Eff.exec (Page.performScan (Js.Resolved tt)
                 [[network "A" 6]; [network "B" 6]; [network "A" 11]]
                 (Js.Resolved []) (Js.Resolved [])) Page.initial))).
Proof.
  split; [reflexivity|]. split; [reflexivity|].
  apply (scan_merge Page.initial [[network "A" 6]; [network "B" 6]; [network "A" 11]]
           [] (Js.Resolved []) eq_refl).
Defined.

(** C10: upserting a record twice leaves the store as the first upsert left
    it: the same entries in the same order, so no entry is added and no field
    changes; and the record is the one stored under its identity. *)
Theorem upsert_idempotent (m : JsMap.t Api.WiFiNetwork) (r : Api.WiFiNetwork) :
  Page.upsert r (Page.upsert r m) = Page.upsert r m /\
  JsMap.get (Api.bssid r) (Page.upsert r m) = Some r /\
  (NoDup (JsMap.keys m) -> NoDup (JsMap.keys (Page.upsert r m))).
Proof.
  unfold Page.upsert. split; [apply set_set|].
  split; [apply get_set_same | apply NoDup_keys_set].
Qed.


(** * Further properties of the components *)

(** ** PacketSniffer: the page shown *)

(** [slice] from a non-negative start over a non-negative width: skip, then
    take. *)
Lemma slice_window {A : Type} (l : list A) (start width : Z) :
  0 <= start -> 0 <= width ->
  Js.slice l start (start + width) = firstn (Z.to_nat width) (skipn (Z.to_nat start) l).
Proof.
  intros Hs Hw. unfold Js.slice.
  destruct (Z.ltb_spec start 0) as [C|_]; [lia|].
  destruct (Z.ltb_spec (start + width) 0) as [C|_]; [lia|].
  destruct (Z_le_gt_dec (Z.of_nat (List.length l)) start) as [Hout|Hin].
  - rewrite (Z.min_r start), (Z.min_r (start + width)) by lia.
    rewrite Z.sub_diag. cbn [Z.to_nat firstn].
    rewrite (skipn_all2 (n := Z.to_nat start)) by lia.
    now destruct (Z.to_nat width).
  - rewrite (Z.min_l start) by lia.
    destruct (Z_le_gt_dec (start + width) (Z.of_nat (List.length l))) as [Hfit|Hcut].
    + rewrite (Z.min_l (start + width)) by lia. f_equal. lia.
    + rewrite (Z.min_r (start + width)) by lia.
      rewrite !firstn_all2; [reflexivity| |]; rewrite length_skipn; lia.
Qed.

Section ViewFacts.
Import PacketSniffer.

Lemma updateDisplayedPackets_window (s : State) :
  1 <= currentPage s ->
  displayedPackets (Eff.exec updateDisplayedPackets s) =
  firstn 10 (skipn (Z.to_nat (10 * (currentPage s - 1))) (allPackets s)).
Proof.
  intros Hp. unfold updateDisplayedPackets, packetsPerPage. unfold_eff.
  destruct s as [ap dp sp name cap err av ui page ivs nh con]. cbn in *.
  rewrite slice_window by lia. now rewrite (Z.mul_comm (page - 1) 10).
Qed.

Lemma window_length {A : Type} (l : list A) (page : Z) :
  1 <= page ->
  Z.of_nat (List.length (firstn 10 (skipn (Z.to_nat (10 * (page - 1))) l))) =
  Z.max 0 (Z.min 10 (Z.of_nat (List.length l) - 10 * (page - 1))).
Proof. intros Hp. rewrite length_firstn, length_skipn. lia. Qed.
End ViewFacts.

(** X1: on page [n >= 1], [updateDisplayedPackets] shows the packets of the
    buffer from index [10 (n - 1)] on, at most 10 of them: as many as the
    buffer has left there, none when the page lies beyond the buffer. *)
Theorem displayed_page (s : PacketSniffer.State) :
  1 <= PacketSniffer.currentPage s ->
  let shown := PacketSniffer.displayedPackets
                 (Eff.exec PacketSniffer.updateDisplayedPackets s) in
  let before := 10 * (PacketSniffer.currentPage s - 1) in
  shown = firstn 10 (skipn (Z.to_nat before) (PacketSniffer.allPackets s)) /\
  Z.of_nat (List.length shown) =
    Z.max 0 (Z.min 10 (Z.of_nat (List.length (PacketSniffer.allPackets s)) - before)).
Proof.
  intros Hp. cbv zeta.
  rewrite updateDisplayedPackets_window by exact Hp.
  split; [reflexivity|]. now apply window_length.
Qed.

(** Page 3 of 25 packets shows the last 5. *)
Lemma displayed_page_witness :
  1 <= 3 /\
  List.length
    (PacketSniffer.displayedPackets
       (Eff.exec PacketSniffer.updateDisplayedPackets
          (PacketSniffer.set_currentPage 3
             (PacketSniffer.set_allPackets (map sample_packet (map Z.of_nat (seq 0 25)))
                PacketSniffer.initial)))) = 5%nat.
Proof.
  split; [lia|].
  pose proof (displayed_page
    (PacketSniffer.set_currentPage 3
       (PacketSniffer.set_allPackets (map sample_packet (map Z.of_nat (seq 0 25)))
          PacketSniffer.initial)) ltac:(cbn; lia)) as [_ H].
  apply Nat2Z.inj. rewrite H. reflexivity.
Defined.

(** ** PacketSniffer: what every reachable state satisfies *)

Section InvariantFacts.
Import PacketSniffer.

Ltac run :=
  cbv beta iota zeta delta
    [on_event onMount onDestroy startCapture stopCapture fetchLatestPackets tick
     selectPacket nextPage prevPage selectInterface
     interfaceName_changed updateDisplayedPackets setInterval clearInterval
     truthy_handle truthy_string State_console
     Api.listDevices Api.startPacketCapture Api.stopPacketCapture Api.getLatestPackets];
  unfold_eff.

Lemma view_ok_same (s s' : State) :
  allPackets s' = allPackets s -> displayedPackets s' = displayedPackets s ->
  currentPage s' = currentPage s -> view_ok s -> view_ok s'.
Proof.
  unfold view_ok, totalPages. intros -> -> ->. exact (fun H => H).
Qed.

Lemma ceil_div_mono (a b : Z) : a <= b -> Js.Math_ceil_div a 10 <= Js.Math_ceil_div b 10.
Proof. intros H. unfold Js.Math_ceil_div. apply Z.div_le_mono; lia. Qed.

(** Showing the current page again establishes the second half of
    [view_ok]. *)
Lemma view_ok_refresh (s : State) :
  1 <= currentPage s <= Z.max 1 (totalPages s) ->
  view_ok (Eff.exec updateDisplayedPackets s).
Proof.
  intros Hp. split.
  - destruct s; exact Hp.
  - rewrite updateDisplayedPackets_window by lia. now destruct s.
Qed.

Lemma selectInterface_view (name : string) (s : State) :
  view_ok s -> view_ok (Eff.exec (selectInterface name) s).
Proof.
  intros H. destruct s as [ap dp sp iname cap err av ui page ivs nh con]. run. cbn.
  destruct (String.eqb iname name); cbn; [exact H|].
  destruct (String.eqb name ""); cbn; [exact H|].
  split; [cbn; lia | reflexivity].
Qed.

Lemma on_event_view (s : State) (e : Event) :
  view_ok s -> view_ok (Eff.exec (on_event e) s).
Proof.
  intros H. destruct e as [answer|answer|t answer|packet| | |name].
  - apply (view_ok_same s); [| | |exact H]; destruct s, answer; reflexivity.
  - apply (view_ok_same s); [| | |exact H];
      destruct s as [ap dp sp iname cap err av [h|] page ivs nh con], answer;
      run; cbn; try reflexivity; destruct (h =? 0); reflexivity.
  - cbn [on_event]. unfold tick. destruct (callback t).
    destruct answer as [[|p newPackets]|err].
    + apply (view_ok_same s); [| | |exact H]; destruct s; reflexivity.
    + change (Eff.exec (fetchLatestPackets (Js.Resolved (p :: newPackets))) s)
        with (Eff.exec updateDisplayedPackets
                (set_allPackets (Js.sort newest_first (allPackets s ++ p :: newPackets)) s)).
      apply view_ok_refresh.
      destruct H as [[H1 H2] _].
      destruct s as [ap dp sp iname cap err av ui page ivs nh con].
      unfold totalPages, packetsPerPage in *. cbn -[Js.sort] in *. split; [exact H1|].
      etransitivity; [exact H2|]. apply Z.max_le_compat_l, ceil_div_mono.
      rewrite (Permutation_length (sort_perm newest_first _)), length_app. lia.
    + apply (view_ok_same s); [| | |exact H]; destruct s; reflexivity.
  - apply (view_ok_same s); [| | |exact H]; destruct s; reflexivity.
  - cbn [on_event]. unfold nextPage. unfold_eff.
    fold (totalPages s).
    destruct (Z.ltb_spec (currentPage s) (totalPages s)) as [Hlt|_]; [|exact H].
    change (view_ok (Eff.exec updateDisplayedPackets (set_currentPage (currentPage s + 1) s))).
    apply view_ok_refresh. destruct H as [[H1 H2] _].
    destruct s as [ap dp sp iname cap err av ui page ivs nh con].
    unfold totalPages in *. cbn in *. lia.
  - cbn [on_event]. unfold prevPage. unfold_eff.
    destruct (Z.gtb_spec (currentPage s) 1) as [Hgt|_]; [|exact H].
    change (view_ok (Eff.exec updateDisplayedPackets (set_currentPage (currentPage s - 1) s))).
    apply view_ok_refresh. destruct H as [[H1 H2] _].
    destruct s as [ap dp sp iname cap err av ui page ivs nh con].
    unfold totalPages in *. cbn in *. lia.
  - now apply selectInterface_view.
Qed.

Lemma onMount_view (answer : Js.Settled (list string)) :
  view_ok (Eff.exec (onMount answer) initial).
Proof.
  destruct answer as [[|first rest]|err]; try (split; [cbn; lia|reflexivity]).
  destruct first; split; cbn; try lia; reflexivity.
Qed.
End InvariantFacts.

(** X2: in every state the component reaches, the page number lies between
    1 and the page count (1 when the count is 0), and the packets shown are
    exactly that page of the buffer: up to 10 packets from index
    [10 (page - 1)] on. *)
Theorem reachable_view (s : PacketSniffer.State) :
  PacketSniffer.reachable s -> view_ok s.
Proof.
  induction 1 as [answer|s e Hs IH He].
  - apply onMount_view.
  - now apply on_event_view.
Qed.

Lemma busy_component_reachable : PacketSniffer.reachable busy_component.
Proof.
  unfold busy_component.
  repeat (apply PacketSniffer.reach_event; [|cbn; auto]).
  apply PacketSniffer.reach_mounted.
Qed.

Lemma reachable_view_witness :
  PacketSniffer.currentPage busy_component = 2 /\
  List.length (PacketSniffer.displayedPackets busy_component) = 2%nat /\
  view_ok busy_component.
Proof.
  split; [reflexivity|]. split; [reflexivity|].
  apply (reachable_view busy_component busy_component_reachable).
Defined.

Section TimerFacts.
Import PacketSniffer.

Ltac run :=
  cbv beta iota zeta delta
    [on_event onMount onDestroy startCapture stopCapture fetchLatestPackets tick
     selectPacket nextPage prevPage selectInterface
     interfaceName_changed updateDisplayedPackets setInterval clearInterval
     truthy_handle truthy_string State_console
     Api.listDevices Api.startPacketCapture Api.stopPacketCapture Api.getLatestPackets];
  unfold_eff.

Lemma timers_ok_same (s s' : State) :
  intervals s' = intervals s -> nextHandle s' = nextHandle s ->
  updateInterval s' = updateInterval s -> isCapturing s' = isCapturing s ->
  timers_ok s -> timers_ok s'.
Proof. unfold timers_ok. intros -> -> -> ->. exact (fun H => H). Qed.

Lemma startCapture_timers (s : State) :
  timers_ok s -> timers_ok (Eff.exec (startCapture (Js.Resolved tt)) s).
Proof.
  intros (Hn & Ht & Hu & Hc & Hh).
  destruct s as [ap dp sp iname cap err av ui page ivs nh con]. cbn in *.
  split; [|split; [|split; [|split]]]; cbn.
  - rewrite map_app. apply NoDup_app; [exact Hn|repeat constructor; intros []|].
    intros h Hin [<-|[]]. apply in_map_iff in Hin. destruct Hin as [t [E Hin]].
    specialize (Ht t Hin). cbn in E. lia.
  - intros t H. apply in_app_or in H. destruct H as [H|[<-|[]]].
    + specialize (Ht t H). lia.
    + cbn. lia.
  - intros h H. inversion H. lia.
  - discriminate.
  - lia.
Qed.

Lemma stopCapture_timers (s : State) :
  timers_ok s -> timers_ok (Eff.exec (stopCapture (Js.Resolved tt)) s).
Proof.
  intros (Hn & Ht & Hu & Hc & Hh).
  assert (K : forall f, timers_ok (set_intervals (filter f (intervals s))
                                     (set_error None (set_isCapturing false s)))).
  { intros f. destruct s as [ap dp sp iname cap err av ui page ivs nh con]. cbn in *.
    split; [|split; [|split; [|split]]]; cbn.
    - clear -Hn. induction ivs as [|t ivs IH]; cbn; [constructor|].
      cbn in Hn. apply NoDup_cons_iff in Hn. destruct Hn as [Hx Hn].
      destruct (f t); cbn; [|now apply IH].
      constructor; [|now apply IH].
      intros C. apply Hx. apply in_map_iff in C. destruct C as [u [E C]].
      apply filter_In in C. rewrite <- E. now apply in_map.
    - intros t H. apply filter_In in H. now apply Ht.
    - exact Hu.
    - discriminate.
    - exact Hh. }
  destruct s as [ap dp sp iname cap err av [h|] page ivs nh con]; run; cbn.
  - destruct (h =? 0) eqn:E; cbn.
    + apply (timers_ok_same (set_intervals (filter (fun _ => true) ivs)
        (set_error None (set_isCapturing false
           (mkState ap dp sp iname cap err av (Some h) page ivs nh con)))));
        try reflexivity; [|apply K].
      cbn. clear. induction ivs as [|t ivs IH]; cbn; congruence.
    + apply (timers_ok_same (set_intervals (filter (fun t => negb (handle t =? h)) ivs)
        (set_error None (set_isCapturing false
           (mkState ap dp sp iname cap err av (Some h) page ivs nh con)))));
        try reflexivity. apply K.
  - apply (timers_ok_same (set_intervals (filter (fun _ => true) ivs)
      (set_error None (set_isCapturing false
         (mkState ap dp sp iname cap err av None page ivs nh con)))));
      try reflexivity; [|apply K].
    cbn. clear. induction ivs as [|t ivs IH]; cbn; congruence.
Qed.

Lemma on_event_timers (s : State) (e : Event) :
  timers_ok s -> timers_ok (Eff.exec (on_event e) s).
Proof.
  intros H. destruct e as [answer|answer|t answer|packet| | |name].
  - destruct answer as [[]|err]; [now apply startCapture_timers|].
    apply (timers_ok_same s); [| | | |exact H]; destruct s; reflexivity.
  - destruct answer as [[]|err]; [now apply stopCapture_timers|].
    apply (timers_ok_same s); [| | | |exact H]; destruct s; reflexivity.
  - apply (timers_ok_same s); [| | | |exact H];
      destruct s, t as [h [] d], answer as [[|p l]|err]; reflexivity.
  - apply (timers_ok_same s); [| | | |exact H]; destruct s; reflexivity.
  - apply (timers_ok_same s); [| | | |exact H]; destruct s; run; cbn;
      match goal with |- context [if ?b then _ else _] => destruct b end; reflexivity.
  - apply (timers_ok_same s); [| | | |exact H]; destruct s; run; cbn;
      match goal with |- context [if ?b then _ else _] => destruct b end; reflexivity.
  - apply (timers_ok_same s); [| | | |exact H];
      destruct s as [ap dp sp iname cap err av ui page ivs nh con]; run; cbn;
      destruct (String.eqb iname name); cbn; try reflexivity;
      destruct (String.eqb name ""); reflexivity.
Qed.

Lemma onMount_timers (answer : Js.Settled (list string)) :
  timers_ok (Eff.exec (onMount answer) initial).
Proof.
  assert (K : timers_ok initial).
  { split; [constructor|]. split; [intros t []|]. split; [discriminate|].
    split; [discriminate|]. cbn. lia. }
  apply (timers_ok_same initial); [| | | |exact K];
    destruct answer as [[|[|c first] rest]|err]; reflexivity.
Qed.
End TimerFacts.

(** X3: in every state the component reaches, the active intervals have
    pairwise distinct handles, each handed out by an earlier [setInterval]
    (so the next handle is fresh) and each polling every 3000 ms; the handle
    the component remembers was handed out too, and a session that captures
    remembers one. *)
Theorem reachable_timers (s : PacketSniffer.State) :
  PacketSniffer.reachable s -> timers_ok s.
Proof.
  induction 1 as [answer|s e Hs IH He].
  - apply onMount_timers.
  - now apply on_event_timers.
Qed.

Lemma reachable_timers_witness :
  PacketSniffer.intervals busy_component
    = [PacketSniffer.mkTimer 1 PacketSniffer.FetchLatestPackets 3000] /\
  timers_ok busy_component.
Proof.
  split; [reflexivity|].
  apply (reachable_timers busy_component busy_component_reachable).
Defined.

Section CompositionFacts.
Import PacketSniffer.

Ltac run :=
  cbv beta iota zeta delta
    [on_event onMount onDestroy startCapture stopCapture fetchLatestPackets tick
     selectPacket nextPage prevPage selectInterface
     interfaceName_changed updateDisplayedPackets setInterval clearInterval
     truthy_handle truthy_string State_console
     Api.listDevices Api.startPacketCapture Api.stopPacketCapture Api.getLatestPackets];
  unfold_eff.

Lemma initial_timers : timers_ok initial.
Proof.
  split; [constructor|]. split; [intros t []|]. split; [discriminate|].
  split; [discriminate|]. cbn. lia.
Qed.

(** Clearing a handle that no active interval carries changes nothing. *)
Lemma filter_fresh (h : Z) (ivs : list Timer) :
  (forall t, In t ivs -> handle t < h) ->
  filter (fun t => negb (handle t =? h)) ivs = ivs.
Proof.
  induction ivs as [|t ivs IH]; intros H; [reflexivity|].
  cbn [filter]. destruct (Z.eqb_spec (handle t) h) as [E|_].
  - specialize (H t (or_introl eq_refl)). lia.
  - cbn [negb]. rewrite IH; [reflexivity|]. intros u Hu. apply H. now right.
Qed.

Lemma page2_of_25_view : view_ok page2_of_25.
Proof. split; [cbn; lia|reflexivity]. Qed.
End CompositionFacts.

(** X4: in a state whose intervals are in order, an accepted start followed
    by an accepted stop leaves the session Idle and the active intervals
    exactly as they were before the start: the interval that was created, and
    no other, is cleared. *)
Theorem start_then_stop (s : PacketSniffer.State) :
  timers_ok s ->
  let s' := Eff.exec (PacketSniffer.stopCapture (Js.Resolved tt))
              (Eff.exec (PacketSniffer.startCapture (Js.Resolved tt)) s) in
  PacketSniffer.status s' = PacketSniffer.Idle /\
  PacketSniffer.intervals s' = PacketSniffer.intervals s.
Proof.
  intros (Hn & Ht & Hu & Hc & Hh). cbv zeta.
  destruct s as [ap dp sp iname cap err av ui page ivs nh con]. cbn in *.
  unfold_sniffer. cbn.
  destruct (Z.eqb_spec nh 0) as [E|_]; [lia|]. cbn.
  split; [reflexivity|].
  rewrite filter_app. cbn. rewrite Z.eqb_refl. cbn. rewrite app_nil_r.
  apply filter_fresh. intros t H. specialize (Ht t H). lia.
Qed.

Lemma start_then_stop_witness :
  timers_ok PacketSniffer.initial /\
  PacketSniffer.intervals
    (Eff.exec (PacketSniffer.stopCapture (Js.Resolved tt))
       (Eff.exec (PacketSniffer.startCapture (Js.Resolved tt)) PacketSniffer.initial))
  = [].
Proof.
  split; [apply initial_timers|].
  apply (start_then_stop PacketSniffer.initial initial_timers).
Defined.

(** X5: when the page shown is a page of the buffer, going to the next page
    and back, or to the previous page and forth, restores the whole state:
    the page number and the packets shown. *)
Theorem page_round_trip (s : PacketSniffer.State) :
  view_ok s ->
  (PacketSniffer.currentPage s < PacketSniffer.totalPages s ->
   Eff.exec PacketSniffer.prevPage (Eff.exec PacketSniffer.nextPage s) = s) /\
  (1 < PacketSniffer.currentPage s ->
   Eff.exec PacketSniffer.nextPage (Eff.exec PacketSniffer.prevPage s) = s).
Proof.
  intros [[H1 H2] Hd].
  destruct s as [ap dp sp iname cap err av ui page ivs nh con].
  unfold PacketSniffer.totalPages, PacketSniffer.packetsPerPage in *.
  cbn [PacketSniffer.currentPage PacketSniffer.allPackets
       PacketSniffer.displayedPackets] in *.
  subst dp.
  split; intros H; unfold_sniffer; unfold PacketSniffer.packetsPerPage;
    cbn -[Js.slice Js.Math_ceil_div firstn skipn Z.mul Z.add Z.sub Z.to_nat Z.ltb Z.gtb].
  - destruct (Z.ltb_spec page (Js.Math_ceil_div (Z.of_nat (List.length ap)) 10)); [|lia].
    cbn -[Js.slice Js.Math_ceil_div firstn skipn Z.mul Z.add Z.sub Z.to_nat Z.ltb Z.gtb].
    destruct (Z.gtb_spec (page + 1) 1); [|lia].
    cbn -[Js.slice Js.Math_ceil_div firstn skipn Z.mul Z.add Z.sub Z.to_nat Z.ltb Z.gtb].
    rewrite Z.add_simpl_r. rewrite slice_window by lia.
    now rewrite (Z.mul_comm (page - 1) 10).
  - destruct (Z.gtb_spec page 1); [|lia].
    cbn -[Js.slice Js.Math_ceil_div firstn skipn Z.mul Z.add Z.sub Z.to_nat Z.ltb Z.gtb].
    destruct (Z.ltb_spec (page - 1) (Js.Math_ceil_div (Z.of_nat (List.length ap)) 10));
      [|lia].
    cbn -[Js.slice Js.Math_ceil_div firstn skipn Z.mul Z.add Z.sub Z.to_nat Z.ltb Z.gtb].
    rewrite Z.sub_add. rewrite slice_window by lia.
    now rewrite (Z.mul_comm (page - 1) 10).
Qed.

Lemma page_round_trip_witness :
  view_ok page2_of_25 /\
  Eff.exec PacketSniffer.prevPage (Eff.exec PacketSniffer.nextPage page2_of_25) = page2_of_25 /\
  Eff.exec PacketSniffer.nextPage (Eff.exec PacketSniffer.prevPage page2_of_25) = page2_of_25.
Proof.
  split; [apply page2_of_25_view|].
  destruct (page_round_trip page2_of_25 page2_of_25_view) as [N P].
  split; [apply N | apply P]; reflexivity.
Defined.

(** X6: when the component is destroyed, the interval it remembers is
    cleared whatever the backend answers to the stop request, so with no
    other interval active nothing polls any more; the flag of the session is
    reset only when the backend accepts the stop. *)
Theorem onDestroy_stops_polling (s : PacketSniffer.State) (answer : Js.Settled unit) :
  PacketSniffer.remembers_intervals s = true ->
  let s' := Eff.exec (PacketSniffer.onDestroy answer) s in
  PacketSniffer.polling s' = false /\
  PacketSniffer.status s' =
    match answer with
    | Js.Resolved _ => PacketSniffer.Idle
    | Js.Rejected _ => PacketSniffer.status s
    end.
Proof.
  intros Hr. cbv zeta. unfold PacketSniffer.remembers_intervals in Hr.
  destruct s as [ap dp sp iname cap err av [h|] page ivs nh con];
    cbn [PacketSniffer.updateInterval PacketSniffer.intervals] in Hr.
  - pose proof (remembered_filtered h ivs Hr) as F.
    unfold PacketSniffer.polling, PacketSniffer.status.
    destruct (h =? 0) eqn:E;
      destruct cap, answer as [[]|e]; unfold_sniffer;
      repeat (progress (cbn; rewrite ?E, ?F)); split; reflexivity.
  - destruct ivs as [|t ivs]; [|discriminate].
    destruct cap, answer as [[]|e]; split; reflexivity.
Qed.

Lemma onDestroy_stops_polling_witness :
  PacketSniffer.remembers_intervals capturing_wlan0 = true /\
  PacketSniffer.polling
    (Eff.exec (PacketSniffer.onDestroy (Js.Rejected "not active")) capturing_wlan0) = false /\
  PacketSniffer.status
    (Eff.exec (PacketSniffer.onDestroy (Js.Rejected "not active")) capturing_wlan0)
    = PacketSniffer.Capturing.
Proof.
  split; [reflexivity|].
  apply (onDestroy_stops_polling capturing_wlan0 (Js.Rejected "not active") eq_refl).
Defined.

Section InterfaceFacts.
Import PacketSniffer.

Lemma interface_ok_same (devices : list string) (s s' : State) :
  interfaceName s' = interfaceName s -> availableInterfaces s' = availableInterfaces s ->
  interface_ok devices s -> interface_ok devices s'.
Proof. unfold interface_ok. intros -> ->. exact (fun H => H). Qed.

Lemma on_event_interface (devices : list string) (s : State) (e : Event) :
  interface_ok devices s -> possible s e -> interface_ok devices (Eff.exec (on_event e) s).
Proof.
  intros H He. destruct e as [answer|answer|t answer|packet| | |name].
  - apply (interface_ok_same devices s); [| |exact H]; destruct s, answer; reflexivity.
  - apply (interface_ok_same devices s); [| |exact H];
      destruct s as [ap dp sp iname cap err av [h|] page ivs nh con], answer;
      unfold_sniffer; cbn; try reflexivity; destruct (h =? 0); reflexivity.
  - apply (interface_ok_same devices s); [| |exact H];
      destruct s, t as [h [] d], answer as [[|p l]|err]; reflexivity.
  - apply (interface_ok_same devices s); [| |exact H]; destruct s; reflexivity.
  - apply (interface_ok_same devices s); [| |exact H]; destruct s; unfold_sniffer; cbn;
      match goal with |- context [if ?b then _ else _] => destruct b end; reflexivity.
  - apply (interface_ok_same devices s); [| |exact H]; destruct s; unfold_sniffer; cbn;
      match goal with |- context [if ?b then _ else _] => destruct b end; reflexivity.
  - cbn [possible] in He.
    destruct s as [ap dp sp iname cap err av ui page ivs nh con].
    destruct H as [Ha Hi]. cbn in Ha, Hi, He. subst av.
    assert (K : interface_ok devices
                  (mkState ap dp sp iname cap err devices ui page ivs nh con)).
    { split; [reflexivity|exact Hi]. }
    unfold_sniffer. cbn.
    destruct (String.eqb iname name); cbn; [exact K|].
    destruct (String.eqb name ""); cbn;
      (split; [reflexivity|]; cbn; destruct devices; [destruct He|exact He]).
Qed.

Lemma onMount_interface (answer : Js.Settled (list string)) :
  interface_ok (listed answer) (Eff.exec (onMount answer) initial).
Proof.
  destruct answer as [[|[|c first] rest]|err]; split; try reflexivity; now left.
Qed.

(** The two descriptions of the states of a component agree. *)
Lemma mounted_with_reachable (s : State) :
  reachable s <-> exists answer, mounted_with answer s.
Proof.
  split.
  - induction 1 as [answer|s e Hs [answer IH] He].
    + exists answer. constructor.
    + exists answer. now constructor.
  - intros [answer H]. induction H as [|s e Hs IH He]; now constructor.
Qed.
End InterfaceFacts.

(** X7: in every state of a component whose mount was answered by a list of
    interfaces, the select element offers exactly that list and the interface
    a capture would start on is one of the list; when the list was empty or
    could not be fetched, the select element is empty and the interface is
    the empty name. *)
Theorem reachable_interface (answer : Js.Settled (list string)) (s : PacketSniffer.State) :
  mounted_with answer s ->
  PacketSniffer.availableInterfaces s = listed answer /\
  (listed answer <> [] -> In (PacketSniffer.interfaceName s) (listed answer)) /\
  (listed answer = [] -> PacketSniffer.interfaceName s = ""%string).
Proof.
  intros H.
  assert (K : interface_ok (listed answer) s).
  { induction H as [|s e Hs IH He].
    - apply onMount_interface.
    - now apply on_event_interface. }
  destruct K as [Ha Hi]. split; [exact Ha|].
  destruct (listed answer) as [|first rest].
  - split; [intros C; now contradiction C|intros _; exact Hi].
  - split; [intros _; exact Hi|discriminate].
Qed.

Lemma busy_component_mounted : mounted_with (Js.Resolved ["wlan0"%string]) busy_component.
Proof.
  unfold busy_component.
  repeat (apply mounted_event; [|cbn; auto]).
  apply mounted_first.
Qed.

Lemma reachable_interface_witness :
  PacketSniffer.interfaceName busy_component = "wlan0"%string /\
  PacketSniffer.availableInterfaces busy_component = ["wlan0"%string] /\
  In (PacketSniffer.interfaceName busy_component) ["wlan0"%string].
Proof.
  split; [reflexivity|].
  destruct (reachable_interface (Js.Resolved ["wlan0"%string]) busy_component
              busy_component_mounted) as (A & I & _).
  split; [exact A|]. apply I. discriminate.
Defined.

(** X8: a poll that brings at least one packet leaves the buffer ordered by
    timestamp, newest first, whatever its order was before, holding the
    packets it held and the new ones; the page number stays and the packets
    shown are that page of the new buffer. *)
Theorem poll_sorts_buffer (s : PacketSniffer.State) (newPackets : list Api.PacketInfo) :
  newPackets <> [] -> 1 <= PacketSniffer.currentPage s ->
  let s' := Eff.exec (PacketSniffer.fetchLatestPackets (Js.Resolved newPackets)) s in
  StronglySorted (fun a b => Api.timestamp b <= Api.timestamp a) (PacketSniffer.allPackets s') /\
  Permutation (PacketSniffer.allPackets s') (PacketSniffer.allPackets s ++ newPackets) /\
  PacketSniffer.currentPage s' = PacketSniffer.currentPage s /\
  PacketSniffer.displayedPackets s' =
    firstn 10 (skipn (Z.to_nat (10 * (PacketSniffer.currentPage s' - 1)))
                 (PacketSniffer.allPackets s')).
Proof.
  intros Hne Hp. cbv zeta.
  destruct newPackets as [|p newPackets]; [contradiction|].
  change (Eff.exec (PacketSniffer.fetchLatestPackets (Js.Resolved (p :: newPackets))) s)
    with (Eff.exec PacketSniffer.updateDisplayedPackets
            (PacketSniffer.set_allPackets
               (Js.sort PacketSniffer.newest_first
                  (PacketSniffer.allPackets s ++ p :: newPackets)) s)).
  rewrite updateDisplayedPackets_window by (destruct s; exact Hp).
  destruct s as [ap dp sp iname cap err av ui page ivs nh con].
  cbn [PacketSniffer.allPackets PacketSniffer.currentPage PacketSniffer.set_allPackets
       Eff.exec PacketSniffer.updateDisplayedPackets Eff.modify snd
       PacketSniffer.set_displayedPackets].
  split; [apply newest_first_sorted|]. split; [apply sort_perm|]. split; reflexivity.
Qed.

Lemma poll_sorts_buffer_witness :
  [sample_packet 3; sample_packet 9] <> [] /\
  1 <= PacketSniffer.currentPage idle_with_packets /\
  map Api.timestamp
    (PacketSniffer.allPackets
       (Eff.exec (PacketSniffer.fetchLatestPackets
                    (Js.Resolved [sample_packet 3; sample_packet 9])) idle_with_packets))
  = [9; 7; 3] /\
  StronglySorted (fun a b => Api.timestamp b <= Api.timestamp a)
    (PacketSniffer.allPackets
       (Eff.exec (PacketSniffer.fetchLatestPackets
                    (Js.Resolved [sample_packet 3; sample_packet 9])) idle_with_packets)).
Proof.
  split; [discriminate|]. split; [cbn; lia|]. split; [reflexivity|].
  apply (poll_sorts_buffer idle_with_packets [sample_packet 3; sample_packet 9]);
    [discriminate | cbn; lia].
Defined.

(** ** The page: the order of the networks and the other outcomes of a scan *)

Section OrderFacts.
Import Api Page.

Lemma note_known (known : list string) (k : string) :
  In k known -> note known k = known.
Proof.
  intros H. unfold note.
  replace (existsb (String.eqb k) known) with true; [reflexivity|].
  symmetry. apply existsb_exists. exists k. split; [exact H|apply String.eqb_refl].
Qed.

Lemma keys_set_each (b : list WiFiNetwork) (m : JsMap.t WiFiNetwork) :
  JsMap.keys (set_each b m) = fold_left note (map bssid b) (JsMap.keys m).
Proof.
  revert m. induction b as [|r b IH]; intros m; [reflexivity|].
  change (set_each (r :: b) m) with (set_each b (upsert r m)).
  rewrite IH. cbn [map fold_left]. f_equal. apply keys_set.
Qed.

Lemma fold_note_keeps (ks known : list string) (k : string) :
  In k known -> In k (fold_left note ks known).
Proof.
  revert known. induction ks as [|k' ks IH]; intros known H; [exact H|].
  cbn [fold_left]. apply IH. unfold note.
  destruct (existsb (String.eqb k') known); [exact H|]. apply in_or_app. now left.
Qed.

Lemma fold_note_absorbs (ks known : list string) :
  (forall k, In k ks -> In k known) -> fold_left note ks known = known.
Proof.
  induction ks as [|k ks IH]; intros H; [reflexivity|].
  cbn [fold_left]. rewrite note_known by (apply H; now left).
  apply IH. intros k' Hk. apply H. now right.
Qed.

Lemma not_known_app (known : list string) (k id : string) :
  negb (existsb (String.eqb id) (known ++ [k])) =
  negb (existsb (String.eqb id) known) && negb (String.eqb id k).
Proof. rewrite existsb_app. cbn. rewrite orb_false_r. apply negb_orb. Qed.

Lemma filter_filter {A : Type} (f g : A -> bool) (l : list A) :
  filter f (filter g l) = filter (fun x => f x && g x) l.
Proof.
  induction l as [|x l IH]; [reflexivity|].
  cbn [filter]. destruct (g x); cbn [filter]; rewrite ?IH, ?andb_true_r, ?andb_false_r;
    [destruct (f x)|]; reflexivity.
Qed.

(** The keys after a run of [set]s: the keys before, then the new ones by
    first occurrence. *)
Lemma fold_note_first_seen (ks known : list string) :
  fold_left note ks known =
  known ++ filter (fun id => negb (existsb (String.eqb id) known)) (first_seen ks).
Proof.
  revert known. induction ks as [|k ks IH]; intros known.
  - cbn. now rewrite app_nil_r.
  - cbn [fold_left first_seen filter]. rewrite IH. unfold note.
    destruct (existsb (String.eqb k) known) eqn:E; cbn [negb].
    + f_equal. rewrite filter_filter. apply filter_ext. intros id.
      destruct (String.eqb_spec id k) as [->|_]; [|now rewrite andb_true_r].
      now rewrite E.
    + rewrite <- app_assoc. cbn [app]. f_equal. f_equal.
      rewrite filter_filter. apply filter_ext. intros id. apply not_known_app.
Qed.

Lemma first_seen_fold (ks : list string) : fold_left note ks [] = first_seen ks.
Proof.
  rewrite fold_note_first_seen. cbn [app existsb negb].
  induction (first_seen ks) as [|k l IH]; [reflexivity|]. cbn. now rewrite IH.
Qed.

Lemma fold_note_covers (ks known : list string) (k : string) :
  In k ks -> In k (fold_left note ks known).
Proof.
  revert known. induction ks as [|k' ks IH]; intros known H; [destruct H|].
  cbn [fold_left]. destruct H as [->|H]; [|now apply IH].
  apply fold_note_keeps. unfold note.
  destruct (existsb (String.eqb k) known) eqn:E.
  - apply existsb_exists in E. destruct E as [x [Hx E]].
    apply String.eqb_eq in E. now subst x.
  - apply in_or_app. right. now left.
Qed.

Lemma merged_empty : merged JsMap.empty [].
Proof. split; [apply reflects_empty|reflexivity]. Qed.

Lemma merged_set_each (b arr : list WiFiNetwork) (m : JsMap.t WiFiNetwork) :
  merged m arr -> merged (set_each b m) (arr ++ b).
Proof.
  intros [R K]. split; [now apply reflects_set_each|].
  rewrite keys_set_each, K, <- first_seen_fold, <- fold_left_app, <- map_app.
  apply first_seen_fold.
Qed.

Lemma merged_again (b arr : list WiFiNetwork) (m : JsMap.t WiFiNetwork) :
  merged m (arr ++ b) -> merged (set_each b m) (arr ++ b).
Proof.
  intros [R K]. split; [now apply reflects_again|].
  rewrite keys_set_each, K. apply fold_note_absorbs.
  intros k Hk. rewrite <- first_seen_fold, map_app, fold_left_app.
  now apply fold_note_covers.
Qed.

Lemma deliver_merged (registered : list Z) (b arr : list WiFiNetwork) (s : State) :
  networks s = JsMap.values (uniqueNetworks s) ->
  merged (uniqueNetworks s) (arr ++ b) ->
  exists s', deliver registered b s = (Js.Resolved tt, s') /\
    networks s' = JsMap.values (uniqueNetworks s') /\
    merged (uniqueNetworks s') (arr ++ b).
Proof.
  revert s. induction registered as [|l registered IH]; intros s Hv Hr.
  - exists s. split; [reflexivity|]. split; assumption.
  - destruct (onScanProgress_spec b s) as (s1 & E1 & _ & U1 & V1).
    destruct (IH s1 V1) as (s2 & E2 & V2 & R2).
    { rewrite U1. now apply merged_again. }
    exists s2. cbn [deliver]. unfold Eff.bind. rewrite E1.
    split; [exact E2|]. split; assumption.
Qed.

Lemma emit_all_merged (progress : list (list WiFiNetwork)) (arr : list WiFiNetwork)
    (s : State) :
  listeners s <> [] ->
  networks s = JsMap.values (uniqueNetworks s) ->
  merged (uniqueNetworks s) arr ->
  exists s', emit_all progress s = (Js.Resolved tt, s') /\
    same_frame s s' /\
    networks s' = JsMap.values (uniqueNetworks s') /\
    merged (uniqueNetworks s') (arr ++ List.concat progress).
Proof.
  revert s arr. induction progress as [|b progress IH]; intros s arr Hl Hv Hr.
  - exists s. cbn [List.concat]. rewrite app_nil_r.
    split; [reflexivity|]. split; [repeat split|]. split; assumption.
  - destruct (deliver_frame (listeners s) b s) as (s1 & E1 & F1).
    assert (V1 : networks s1 = JsMap.values (uniqueNetworks s1) /\
                 merged (uniqueNetworks s1) (arr ++ b)).
    { destruct (listeners s) as [|l registered]; [contradiction|].
      cbn [deliver] in E1. unfold Eff.bind in E1.
      destruct (onScanProgress_spec b s) as (s0 & E0 & _ & U0 & V0).
      rewrite E0 in E1.
      destruct (deliver_merged registered b arr s0 V0) as (s2 & E2 & V2 & R2).
      { rewrite U0. now apply merged_set_each. }
      rewrite E2 in E1. inversion E1; subst s2. split; assumption. }
    destruct V1 as [V1 R1].
    destruct (IH s1 (arr ++ b)) as (s2 & E2 & F2 & V2 & R2); try assumption.
    { destruct F1 as [-> _]. exact Hl. }
    exists s2. cbn [emit_all List.concat]. unfold Eff.bind at 1.
    change (emit b s) with (deliver (listeners s) b s). rewrite E1.
    split; [exact E2|]. rewrite app_assoc.
    split; [unfold same_frame in *; intuition congruence|]. split; assumption.
Qed.
End OrderFacts.

Section OutcomeFacts.
Import Api Page.

(** One call of [performScan] on a page that is not scanning, whatever the
    runtime and the backend answer. *)
Lemma performScan_any (s : State) (listening : Js.Settled unit)
    (progress : list (list WiFiNetwork)) (scanned : Js.Settled (list WiFiNetwork))
    (channels : Js.Settled (list ChannelData.t)) :
  isScanning s = false ->
  let r := performScan listening progress scanned channels s in
  fst r = Js.Resolved tt /\
  isScanning (snd r) = false /\
  networks (snd r) = JsMap.values (uniqueNetworks (snd r)) /\
  merged (uniqueNetworks (snd r)) (arrivals_of listening progress scanned).
Proof.
  destruct s as [nets sel cd vis scanning uniq ls nl con]. cbn [isScanning].
  intros ->. cbv zeta.
  destruct listening as [[]|e].
  2:{ unfold_page. cbn. split; [reflexivity|]. split; [reflexivity|].
      split; [reflexivity|]. apply merged_empty. }
  unfold_page. cbn.
  match goal with
  | |- context [emit_all progress ?st] =>
      destruct (emit_all_merged progress [] st) as (s3 & E & F & V & R)
  end.
  { cbn. now destruct ls. }
  { reflexivity. }
  { apply merged_empty. }
  rewrite E. clear E F.
  destruct s3 as [nets3 sel3 cd3 vis3 scanning3 uniq3 ls3 nl3 con3].
  cbn [networks uniqueNetworks app] in V, R. subst nets3.
  destruct scanned as [[|r final]|e].
  - cbn [arrivals_of]. rewrite app_nil_r. cbn. unfold JsMap.values.
    destruct (map snd uniq3) as [|n rest] eqn:Ev; destruct channels; cbn;
      rewrite ?Ev;
      (split; [reflexivity|]; split; [reflexivity|]; split; [reflexivity|exact R]).
  - cbn [arrivals_of]. cbn -[set_each].
    pose proof (merged_set_each (r :: final) _ _ R) as R'.
    destruct (map snd (set_each (r :: final) uniq3)) as [|n rest] eqn:Ev;
      destruct channels; cbn -[set_each]; unfold JsMap.values; rewrite ?Ev;
      (split; [reflexivity|]; split; [reflexivity|]; split; [reflexivity|exact R']).
  - cbn [arrivals_of]. rewrite app_nil_r. cbn.
    split; [reflexivity|]. split; [reflexivity|]. split; [reflexivity|exact R].
Qed.
End OutcomeFacts.

Lemma reflects_keys (m : JsMap.t Api.WiFiNetwork) (arr : list Api.WiFiNetwork) :
  reflects m arr -> map Api.bssid (JsMap.values m) = JsMap.keys m.
Proof.
  intros (_ & Hk & _). unfold JsMap.values, JsMap.keys. rewrite map_map.
  apply map_ext_in. intros [k r] H. symmetry. now apply Hk.
Qed.

(** X9: [performScan] never throws, whatever the runtime and the backend
    answer; called during a scan it changes nothing at all, and called
    otherwise it always ends with the page no longer scanning. *)
Theorem performScan_ends (s : Page.State) (listening : Js.Settled unit)
    (progress : list (list Api.WiFiNetwork)) (scanned : Js.Settled (list Api.WiFiNetwork))
    (channels : Js.Settled (list Api.ChannelData.t)) :
  let r := Page.performScan listening progress scanned channels s in
  fst r = Js.Resolved tt /\
  (Page.isScanning s = true -> snd r = s) /\
  (Page.isScanning s = false -> Page.isScanning (snd r) = false).
Proof.
  cbv zeta. destruct (Page.isScanning s) eqn:E.
  - unfold Page.performScan, Eff.bind, Eff.gets. rewrite E.
    split; [reflexivity|]. split; [reflexivity|discriminate].
  - destruct (performScan_any s listening progress scanned channels E) as (R & I & _).
    split; [exact R|]. split; [discriminate|]. intros _. exact I.
Qed.

(** X10: after any scan that started, also one whose [listen], [scan_wifi]
    or [get_channel_data] call failed, the networks shown hold one record per
    identity, for exactly the identities that arrived during this scan (none
    of an earlier scan), each with its last observation: what the progress
    events merged stays visible when the final call fails. *)
Theorem scan_snapshot_any_outcome (s : Page.State) (listening : Js.Settled unit)
    (progress : list (list Api.WiFiNetwork)) (scanned : Js.Settled (list Api.WiFiNetwork))
    (channels : Js.Settled (list Api.ChannelData.t)) :
  Page.isScanning s = false ->
  let arrivals := arrivals_of listening progress scanned in
  let snapshot :=
    Page.networks (Eff.exec (Page.performScan listening progress scanned channels) s) in
  NoDup (map Api.bssid snapshot) /\
  (forall id, In id (map Api.bssid snapshot) <-> In id (map Api.bssid arrivals)) /\
  (forall r, In r snapshot <-> last_observation (Api.bssid r) arrivals = Some r).
Proof.
  intros Hs. cbv zeta.
  destruct (performScan_any s listening progress scanned channels Hs)
    as (_ & _ & V & [R _]).
  unfold Eff.exec. rewrite V.
  destruct (reflects_values _ _ R) as (N & L & I).
  split; [exact N|]. split; [exact I|exact L].
Qed.

(** A scan whose final call fails after two progress events. *)
Lemma scan_snapshot_any_outcome_witness :
  Page.isScanning Page.initial = false /\
  Page.networks
    (Eff.exec (Page.performScan (Js.Resolved tt) [[network "A" 6]; [network "B" 6]]
                 (Js.Rejected "scan failed") (Js.Resolved [])) Page.initial)
  = [network "A" 6; network "B" 6] /\
  NoDup (map Api.bssid (Page.networks
    (Eff.exec (Page.performScan (Js.Resolved tt) [[network "A" 6]; [network "B" 6]]
                 (Js.Rejected "scan failed") (Js.Resolved [])) Page.initial))).
Proof.
  split; [reflexivity|]. split; [reflexivity|].
  apply (scan_snapshot_any_outcome Page.initial (Js.Resolved tt)
           [[network "A" 6]; [network "B" 6]] (Js.Rejected "scan failed")
           (Js.Resolved []) eq_refl).
Defined.

(** X11: the networks are shown in the order in which their identities
    first arrived during the scan; a later observation of an identity
    replaces the record where it stands. *)
Theorem scan_snapshot_order (s : Page.State) (listening : Js.Settled unit)
    (progress : list (list Api.WiFiNetwork)) (scanned : Js.Settled (list Api.WiFiNetwork))
    (channels : Js.Settled (list Api.ChannelData.t)) :
  Page.isScanning s = false ->
  map Api.bssid
    (Page.networks (Eff.exec (Page.performScan listening progress scanned channels) s))
  = first_seen (map Api.bssid (arrivals_of listening progress scanned)).
Proof.
  intros Hs.
  destruct (performScan_any s listening progress scanned channels Hs)
    as (_ & _ & V & [R K]).
  unfold Eff.exec. rewrite V, (reflects_keys _ _ R). exact K.
Qed.

(** B arrives before A's second observation and after its first: A stays
    first; C comes with the final batch and goes last. *)
Lemma scan_snapshot_order_witness :
  Page.isScanning Page.initial = false /\
  first_seen ["A"; "B"; "A"; "C"; "B"]%string = ["A"; "B"; "C"]%string /\
  map Api.bssid
    (Page.networks
       (Eff.exec (Page.performScan (Js.Resolved tt)
                    [[network "A" 6; network "B" 6]; [network "A" 11]]
                    (Js.Resolved [network "C" 1; network "B" 3]) (Js.Resolved []))
          Page.initial))
  = ["A"; "B"; "C"]%string.
Proof.
  split; [reflexivity|]. split; [reflexivity|].
  apply (scan_snapshot_order Page.initial (Js.Resolved tt)
           [[network "A" 6; network "B" 6]; [network "A" 11]]
           (Js.Resolved [network "C" 1; network "B" 3]) (Js.Resolved []) eq_refl).
Defined.

(** ** ChannelRating: the three readings of one occupancy *)

Section AllNumbers.
Open Scope float_scope.

Ltac spec_of c :=
  let v := eval vm_compute in (Prim2SF c) in
  change (Prim2SF c) with v in *.

(** On every number that is a number, in the domain or not, the
    comparisons with the thresholds behave as a total order does. *)
Lemma threshold_order_total (x : float) :
  (x =? x) = true ->
  (0.7 <=? x) = negb (x <? 0.7) /\
  ((x <? 0.3) = true -> (x <? 0.5) = true) /\
  ((x <? 0.5) = true -> (x <? 0.7) = true).
Proof.
  rewrite !ltb_spec, !leb_spec, eqb_spec.
  spec_of 0.3. spec_of 0.5. spec_of 0.7.
  destruct (Prim2SF x) as [s|s| |s m e];
    unfold SFeqb, SFltb, SFleb, SFcompare; try destruct s; try discriminate;
    try (intros; repeat split; intros; (reflexivity || discriminate)).
  intros _.
  rewrite !Pos.compare_cont_spec, !Pos2Z.inj_compare.
  generalize (Z.pos m). clear m. intros m.
  rewrite (Z.compare_antisym e (-53)).
  rewrite (Z.compare_antisym m 6305039478318694).
  destruct (Z.compare_spec e (-54)); destruct (Z.compare_spec e (-53)); try lia;
    destruct (Z.compare_spec m 5404319552844595);
    destruct (Z.compare_spec m 4503599627370496); try lia;
    destruct (Z.compare_spec m 6305039478318694); try lia;
    cbv [CompOpp Pos.switch_Eq negb]; repeat split; intros; (reflexivity || discriminate).
Qed.

(** No comparison with [NaN] holds. *)
Lemma nan_compares_false (x c : float) :
  (x =? x) = false -> (x <? c) = false /\ (c <=? x) = false.
Proof.
  rewrite ltb_spec, leb_spec, eqb_spec.
  destruct (Prim2SF x) as [s|s| |s m e]; unfold SFeqb, SFltb, SFleb, SFcompare.
  - discriminate.
  - destruct s; discriminate.
  - intros _. split; [reflexivity|]. now destruct (Prim2SF c).
  - destruct s; rewrite Z.compare_refl, Pos.compare_cont_refl; discriminate.
Qed.
End AllNumbers.

(** X13: on every occupancy that is a number, in [0, 1] or not, the
    quality, the colour and the recommendation of a row agree: "Excellent" is
    green and recommended, "Good" is blue and "Fair" is yellow, both usable
    with caution, and "Poor" is red and to avoid.  On [NaN] the row is "Poor"
    and red, yet "Usable with caution". *)
Theorem rating_consistent (x : float) :
  let row := (ChannelRating.getChannelQuality x, ChannelRating.getChannelColor x,
              ChannelRating.recommendation x) in
  if (x =? x)%float then
    row = ("Excellent", "text-green-500", "Recommended, low traffic")%string \/
    row = ("Good", "text-blue-500", "Usable with caution")%string \/
    row = ("Fair", "text-yellow-500", "Usable with caution")%string \/
    row = ("Poor", "text-red-500", "Avoid - high congestion")%string
  else row = ("Poor", "text-red-500", "Usable with caution")%string.
Proof.
  cbv zeta.
  unfold ChannelRating.getChannelQuality, ChannelRating.getChannelColor,
    ChannelRating.recommendation.
  destruct (x =? x)%float eqn:E.
  - destruct (threshold_order_total x E) as (L7 & M35 & M57). rewrite L7.
    destruct (x <? 0.3)%float; [specialize (M35 eq_refl); rewrite M35 in *|];
      (destruct (x <? 0.5)%float; [specialize (M57 eq_refl); rewrite M57 in *|]);
      try destruct (x <? 0.7)%float; cbn [negb]; auto 6.
  - destruct (nan_compares_false x 0.3%float E) as [-> _].
    destruct (nan_compares_false x 0.5%float E) as [-> _].
    destruct (nan_compares_false x 0.7%float E) as [-> ->].
    reflexivity.
Qed.

(** ** ChannelRating: normalizing and sorting *)

Section NormalizeFacts.
Import Api.ChannelData ChannelRating.

Lemma find_filter {A : Type} (f g : A -> bool) (l : list A) :
  (forall x, f x = true -> g x = true) -> find f (filter g l) = find f l.
Proof.
  intros H. induction l as [|x l IH]; [reflexivity|].
  cbn [filter find]. destruct (f x) eqn:F.
  - rewrite (H x F). cbn [find]. now rewrite F.
  - destruct (g x); cbn [find]; rewrite ?F; exact IH.
Qed.

(** In a list of entries with the channels [a + 1], [a + 2], ... the entry
    of channel [i + 1] is found at its place. *)
Lemma find_entry (entry : Z -> Api.ChannelData.t) (a n : nat) (i : nat) :
  (forall j, channel (entry (Z.of_nat j)) = Z.of_nat j + 1) ->
  (a <= i < a + n)%nat ->
  find (fun d => channel d =? Z.of_nat i + 1) (map (fun j => entry (Z.of_nat j)) (seq a n))
  = Some (entry (Z.of_nat i)).
Proof.
  intros Hc. revert a. induction n as [|n IH]; intros a Hi; [lia|].
  cbn [seq map find]. rewrite Hc.
  destruct (Z.eqb_spec (Z.of_nat a + 1) (Z.of_nat i + 1)) as [E|E].
  - do 2 f_equal. lia.
  - apply IH. lia.
Qed.
End NormalizeFacts.

(** X14: the normalized data depend only on the input entries with a
    channel from 1 to 13, and normalizing them again changes nothing; the
    table rows are a rearrangement of them under either sort order, so every
    channel keeps exactly one row. *)
Theorem normalizedData_stable (channelData : list Api.ChannelData.t) (sortBy : string) :
  ChannelRating.normalizedData
    (filter (fun d => (1 <=? Api.ChannelData.channel d) && (Api.ChannelData.channel d <=? 13))
       channelData)
    = ChannelRating.normalizedData channelData /\
  ChannelRating.normalizedData (ChannelRating.normalizedData channelData)
    = ChannelRating.normalizedData channelData /\
  Permutation (ChannelRating.sortedData sortBy (ChannelRating.normalizedData channelData))
    (ChannelRating.normalizedData channelData).
Proof.
  split; [|split].
  - unfold ChannelRating.normalizedData, Js.Array_from_length.
    apply map_ext_in. intros i Hi. apply in_seq in Hi.
    rewrite find_filter; [reflexivity|].
    intros d Hd. apply Z.eqb_eq in Hd. rewrite Hd.
    apply andb_true_iff. split; apply Z.leb_le; lia.
  - unfold ChannelRating.normalizedData at 1. unfold Js.Array_from_length.
    unfold ChannelRating.normalizedData at 2. unfold Js.Array_from_length.
    apply map_ext_in. intros i Hi. apply in_seq in Hi.
    unfold ChannelRating.normalizedData, Js.Array_from_length.
    rewrite (find_entry
      (fun j => match find (fun d => Api.ChannelData.channel d =? j + 1) channelData with
                | Some existing => existing
                | None => {| Api.ChannelData.channel := j + 1; Api.ChannelData.occupancy := 0 |}
                end) 0 13 i); [reflexivity| |lia].
    intros j. apply entry_channel.
  - apply sort_perm.
Qed.

(** ** ChannelGraph: the order of the bars *)

(** X15: the graph draws its bars in ascending order of channel and draws
    each entry of the channel data exactly once, whatever their order and
    whatever channels they carry. *)
Theorem graph_sortedData (channelData : list Api.ChannelData.t) :
  StronglySorted (fun a b => Api.ChannelData.channel a <= Api.ChannelData.channel b)
    (ChannelGraph.sortedData channelData) /\
  Permutation (ChannelGraph.sortedData channelData) channelData.
Proof.
  split; [|apply sort_perm].
  assert (E : forall a b, Js.in_order ChannelGraph.by_channel a b <->
                          Api.ChannelData.channel a <= Api.ChannelData.channel b).
  { intros a b. unfold Js.in_order, ChannelGraph.by_channel, Js.sign.
    rewrite Z.compare_gt_iff. lia. }
  assert (H : StronglySorted (Js.in_order ChannelGraph.by_channel)
                (ChannelGraph.sortedData channelData)).
  { apply sort_sorted.
    - intros x y. unfold ChannelGraph.by_channel, Js.sign. rewrite !Z.compare_gt_iff. lia.
    - intros x y z. rewrite !E. lia. }
  induction H as [|a l Hs IH Ha]; constructor; [exact IH|].
  eapply Forall_impl; [|exact Ha]. intros b. apply E.
Qed.

(** ** NetworkList: the signal icon *)

(** X16: the signal level is a whole number from 1 to 4 that never goes
    down when the quality goes up, the colour of the icon is the same for two
    qualities of the same level, and the part of the icon that is clipped
    away is 0, 25, 50 or 75 percent, less for a higher level. *)
Theorem signal_level_monotone (q q' : Z) :
  q <= q' ->
  1 <= NetworkList.getSignalLevel q <= 4 /\
  NetworkList.getSignalLevel q <= NetworkList.getSignalLevel q' /\
  (NetworkList.getSignalLevel q = NetworkList.getSignalLevel q' ->
   NetworkList.getSignalColor q = NetworkList.getSignalColor q') /\
  NetworkList.clip_percent q = 25 * (4 - NetworkList.getSignalLevel q) /\
  NetworkList.clip_percent q' <= NetworkList.clip_percent q.
Proof.
  intros H. unfold NetworkList.clip_percent, NetworkList.getSignalLevel,
    NetworkList.getSignalColor.
  destruct (Z.geb_spec q 80), (Z.geb_spec q 60), (Z.geb_spec q 40),
    (Z.geb_spec q' 80), (Z.geb_spec q' 60), (Z.geb_spec q' 40);
    try lia; repeat split; intros; try lia; try reflexivity; try discriminate.
Qed.

Lemma signal_level_monotone_witness :
  59 <= 60 /\
  NetworkList.getSignalLevel 59 = 2 /\ NetworkList.getSignalLevel 60 = 3 /\
  NetworkList.getSignalLevel 59 <= NetworkList.getSignalLevel 60.
Proof.
  split; [lia|]. split; [reflexivity|]. split; [reflexivity|].
  apply (signal_level_monotone 59 60). lia.
Defined.
